(** * vector-database-pinecone: the demo script [main.py], embedded and verified

    The repository is one script, [src/main.py]: it loads a sentence
    embedding model, makes sure a Pinecone index exists and waits until it
    reports ready, embeds ten sentences and upserts them, runs one similarity
    query, prints the matches and deletes the index.

    Every non-trivial operation is a call into one of two SDKs.  The script is
    embedded over an interface [Sdk] that lists those calls; a run threads the
    state of the outside world through them, records each call and each
    [print] in a trace, and ends normally, with the exception an SDK call
    raised, or (the [while] loop being unbounded) out of fuel.

    What is abstracted: floats are an arbitrary type (the script never
    computes on them); a [print] is recorded with the values it formats, not
    with the formatted text; the environment variables, which [load_dotenv]
    fills before [main] runs, are a function from names to values.

    The file has two parts: the definitions (the data, the interface, the
    script, a stub of the two SDKs to run it against), then the proofs. *)

From stdpp Require Import base strings list gmap sorting.
From Stdlib Require Import ZArith Lia.

Open Scope string_scope.
Open Scope Z_scope.
Open Scope list_scope.

(** ** Data *)

(** [metric="euclidean"]: the metrics an index can be created with. *)
Inductive Metric := euclidean | cosine | dotproduct.

(** [ServerlessSpec(cloud="aws", region="us-east-1")]. *)
Record ServerlessSpec := { cloud : string; region : string }.

(** [pc.describe_index(index_name).status]: the script reads its ['ready']
    entry. *)
Record IndexStatus := { ready : bool; state : string }.

(** What [pc.describe_index] returns. *)
Record IndexModel := {
  index_name_of : string;
  dimension_of : Z;
  metric_of : Metric;
  status : IndexStatus
}.

(** One entry of [sentences_to_index]: [{"id": ..., "text": ...}]. *)
Record Sentence := { sent_id : string; sent_text : string }.

(** One [vector_info]: [{"id": ..., "values": ..., "metadata": {...}}]. *)
Record VectorInfo (F : Type) := {
  vec_id : string;
  vec_values : list F;
  vec_metadata : gmap string string
}.
Arguments vec_id {F} _.
Arguments vec_values {F} _.
Arguments vec_metadata {F} _.

(** One entry of [query_result['matches']]; ['metadata'] may be missing. *)
Record Match (F : Type) := {
  match_id : string;
  match_score : F;
  match_values : list F;
  match_metadata : option (gmap string string)
}.
Arguments match_id {F} _.
Arguments match_score {F} _.
Arguments match_values {F} _.
Arguments match_metadata {F} _.

(** What [index.query] returns. *)
Record QueryResponse (F : Type) := {
  matches : list (Match F);
  namespace : string
}.
Arguments matches {F} _.
Arguments namespace {F} _.

(** ** The two SDKs

    [Float] is the type of vector components and scores, [Exn] the exceptions
    the SDK calls raise, [World] everything outside the process (the remote
    service and the clock).  A remote call takes the world and gives its
    answer, an exception or a value, with the world after it.  The embedding
    model is a function of the text. *)
Class Sdk := {
  Float : Type;
  Exn : Type;
  World : Type;
  Model : Type;
  Client : Type;
  IndexHandle : Type;
  IndexList : Type;
  UpsertResponse : Type;
  IndexStats : Type;
  (* os.getenv *)
  getenv : string -> option string;
  (* sentence_transformers *)
  SentenceTransformer : string -> Exn + Model;
  encode : Model -> string -> Exn + list Float;
  (* pinecone.Pinecone and its methods *)
  Pinecone : option string -> Exn + Client;
  list_indexes : Client -> World -> (Exn + IndexList) * World;
  has_index : Client -> string -> World -> (Exn + bool) * World;
  create_index :
    Client -> string -> Z -> Metric -> ServerlessSpec -> World -> (Exn + unit) * World;
  describe_index : Client -> string -> World -> (Exn + IndexModel) * World;
  Index : Client -> string -> World -> (Exn + IndexHandle) * World;
  delete_index : Client -> string -> World -> (Exn + unit) * World;
  (* the methods of the object pc.Index returns *)
  upsert :
    IndexHandle -> list (VectorInfo Float) -> string -> World ->
    (Exn + UpsertResponse) * World;
  describe_index_stats : IndexHandle -> World -> (Exn + IndexStats) * World;
  query :
    IndexHandle -> list Float -> Z -> string -> bool -> bool -> World ->
    (Exn + QueryResponse Float) * World;
  (* time.sleep *)
  sleep : Z -> World -> World
}.

(** ** Runs *)

(** How a piece of the script ends. *)
Inductive Res (E A : Type) :=
  | Ok (a : A)
  | Raise (e : E)
  | OutOfFuel.
Arguments Ok {E A} _.
Arguments Raise {E A} _.
Arguments OutOfFuel {E A}.

(** A run: how it ended, the world it left, and what it did, in order. *)
Record Outcome (E W Ev A : Type) := {
  result : Res E A;
  final : W;
  trace : list Ev
}.
Arguments result {E W Ev A} _.
Arguments final {E W Ev A} _.
Arguments trace {E W Ev A} _.

Section Script.
Context `{Sdk}.

(** What the script prints, one constructor per [print] statement. *)
Inductive Msg :=
  | MsgIndex (indexes : IndexList)
  | MsgWaiting (index_name : string)
  | MsgReady (index_name : string)
  | MsgEmbedding (embedding : list Float)
  | MsgVectorInfo (vector_info : VectorInfo Float)
  | MsgVectorData (vector_data : list (VectorInfo Float))
  | MsgUpsertResult (upsert_result : UpsertResponse)
  | MsgStats (stats : IndexStats)
  | MsgQueryResult (query_result : QueryResponse Float)
  | MsgMatchesHeader
  | MsgMatch (rank : nat) (id : string) (score : Float)
  | MsgMetadata (md : gmap string string)
  | MsgText (sentence : string)
  | MsgNoMetadata
  | MsgBlank.

(** What a run does that can be seen from outside: the remote calls, with
    their arguments, the sleeps and the prints. *)
Inductive Event :=
  | CallListIndexes
  | CallHasIndex (name : string)
  | CallCreateIndex (name : string) (dimension : Z) (metric : Metric) (spec : ServerlessSpec)
  | CallDescribeIndex (name : string)
  | CallSleep (secs : Z)
  | CallIndex (name : string)
  | CallUpsert (index : IndexHandle) (vectors : list (VectorInfo Float)) (ns : string)
  | CallDescribeIndexStats (index : IndexHandle)
  | CallQuery (index : IndexHandle) (vector : list Float) (top_k : Z) (ns : string)
      (include_values include_metadata : bool)
  | CallDeleteIndex (name : string)
  | Stdout (msg : Msg).

Definition Run (A : Type) : Type := World -> Outcome Exn World Event A.

Definition ret {A} (a : A) : Run A :=
  fun w => {| result := Ok a; final := w; trace := [] |}.

Definition bind {A B} (m : Run A) (k : A -> Run B) : Run B :=
  fun w =>
    let o := m w in
    match result o with
    | Ok a =>
        let o' := k a (final o) in
        {| result := result o'; final := final o'; trace := trace o ++ trace o' |}
    | Raise e => {| result := Raise e; final := final o; trace := trace o |}
    | OutOfFuel => {| result := OutOfFuel; final := final o; trace := trace o |}
    end.

Definition answer {A} (r : Exn + A) : Res Exn A :=
  match r with
  | inl e => Raise e
  | inr a => Ok a
  end.

(** A call that stays in the process (loading the model, encoding). *)
Definition local {A} (r : Exn + A) : Run A :=
  fun w => {| result := answer r; final := w; trace := [] |}.

(** A remote call, recorded as [ev]. *)
Definition remote {A} (ev : Event) (op : World -> (Exn + A) * World) : Run A :=
  fun w => {| result := answer (op w).1; final := (op w).2; trace := [ev] |}.

Definition print (msg : Msg) : Run unit :=
  fun w => {| result := Ok tt; final := w; trace := [Stdout msg] |}.

Definition time_sleep (secs : Z) : Run unit :=
  fun w => {| result := Ok tt; final := sleep secs w; trace := [CallSleep secs] |}.

Definition out_of_fuel {A} : Run A :=
  fun w => {| result := OutOfFuel; final := w; trace := [] |}.

End Script.

Notation "'let*' x := m 'in' k" := (bind m (fun x => k))
  (at level 10, x name, m at level 100, k at level 200).
Notation "m >> k" := (bind m (fun _ => k))
  (at level 100, k at level 200, right associativity).

Section Program.
Context `{Sdk}.

(** ** The script, block by block *)

(** Lines 27-41: [if not pc.has_index(index_name): pc.create_index(...)]. *)
Definition create_if_absent (pc : Client) (index_name : string)
    (dimension : Z) (metric : Metric) (spec : ServerlessSpec) : Run unit :=
  let* present := remote (CallHasIndex index_name) (has_index pc index_name) in
  if negb present then
    remote (CallCreateIndex index_name dimension metric spec)
           (create_index pc index_name dimension metric spec)
  else ret tt.

(** Lines 44-46: [while not pc.describe_index(index_name).status['ready']].
    The loop has no bound of its own; [fuel] bounds the number of times its
    condition is evaluated. *)
Fixpoint wait_until_ready (fuel : nat) (pc : Client) (index_name : string) : Run unit :=
  match fuel with
  | O => out_of_fuel
  | S fuel' =>
      let* description := remote (CallDescribeIndex index_name) (describe_index pc index_name) in
      if negb (ready (status description)) then
        print (MsgWaiting index_name) >>
        time_sleep 1 >>
        wait_until_ready fuel' pc index_name
      else ret tt
  end.

(** Lines 27-47: create the index when it is absent, wait, report. *)
Definition ensure_ready (fuel : nat) (pc : Client) (index_name : string)
    (dimension : Z) (metric : Metric) (spec : ServerlessSpec) : Run unit :=
  create_if_absent pc index_name dimension metric spec >>
  wait_until_ready fuel pc index_name >>
  print (MsgReady index_name).

(** Lines 52-63. *)
Definition sentences_to_index : list Sentence := [
  {| sent_id := "vector1";  sent_text := "I love using vector databases" |};
  {| sent_id := "vector2";  sent_text := "Vector databases are great for storing and retrieving vectors" |};
  {| sent_id := "vector3";  sent_text := "Using vector databases makes my life easier" |};
  {| sent_id := "vector4";  sent_text := "Vector databases are efficient for storing vectors" |};
  {| sent_id := "vector5";  sent_text := "I enjoy working with vector databases" |};
  {| sent_id := "vector6";  sent_text := "Vector databases are useful for many applications" |};
  {| sent_id := "vector7";  sent_text := "I find vector databases very helpful" |};
  {| sent_id := "vector8";  sent_text := "Vector databases can handle large amounts of data" |};
  {| sent_id := "vector9";  sent_text := "I think vector databases are the future of data storage" |};
  {| sent_id := "vector10"; sent_text := "Using vector databases has improved my workflow" |}
].

(** Line 72: the dictionary built for one sentence. *)
Definition vector_info_of (sentence : Sentence) (embedding : list Float) : VectorInfo Float :=
  {| vec_id := sent_id sentence;
     vec_values := embedding;
     vec_metadata := {[ "sentence" := sent_text sentence ]} |}.

(** Lines 67-75: the loop over the sentences; [vector_data] is the list the
    loop appends to. *)
Fixpoint embed_sentences (model : Model) (sentences : list Sentence)
    (vector_data : list (VectorInfo Float)) : Run (list (VectorInfo Float)) :=
  match sentences with
  | [] => ret vector_data
  | sentence :: rest =>
      let* embedding := local (encode model (sent_text sentence)) in
      print (MsgEmbedding embedding) >>
      let vector_info := vector_info_of sentence embedding in
      print (MsgVectorInfo vector_info) >>
      embed_sentences model rest (vector_data ++ [vector_info])
  end.

(** Lines 65-76: [vector_data = []], the loop, the print after it. *)
Definition embed (model : Model) (sentences : list Sentence) : Run (list (VectorInfo Float)) :=
  let* vector_data := embed_sentences model sentences [] in
  print (MsgVectorData vector_data) >>
  ret vector_data.

(** Lines 65-82: embed the sentences, get the index, upsert them in one
    call. *)
Definition embed_and_upsert (model : Model) (pc : Client) (index_name ns : string)
    (sentences : list Sentence) : Run IndexHandle :=
  let* vector_data := embed model sentences in
  let* index := remote (CallIndex index_name) (Index pc index_name) in
  let* upsert_result := remote (CallUpsert index vector_data ns) (upsert index vector_data ns) in
  print (MsgUpsertResult upsert_result) >>
  ret index.

(** Lines 92-96: embed the search text and query. *)
Definition search (model : Model) (index : IndexHandle) (ns search_text : string)
    (top_k : Z) (include_values include_metadata : bool) : Run (QueryResponse Float) :=
  let* search_embedding := local (encode model search_text) in
  let* query_result :=
    remote (CallQuery index search_embedding top_k ns include_values include_metadata)
           (query index search_embedding top_k ns include_values include_metadata) in
  print (MsgQueryResult query_result) >>
  ret query_result.

(** Lines 107-114: [for i, match in enumerate(query_result['matches'])]. *)
Fixpoint report_matches (i : nat) (ms : list (Match Float)) : Run unit :=
  match ms with
  | [] => ret tt
  | m :: rest =>
      print (MsgMatch (i + 1) (match_id m) (match_score m)) >>
      match match_metadata m with
      | Some md =>
          print (MsgMetadata md) >>
          match md !! "sentence" with
          | Some text => print (MsgText text)
          | None => ret tt
          end
      | None => print MsgNoMetadata
      end >>
      report_matches (S i) rest
  end.

(** Lines 106-115. *)
Definition report (query_result : QueryResponse Float) : Run unit :=
  print MsgMatchesHeader >>
  report_matches 0 (matches query_result) >>
  print MsgBlank.

(** Line 130: [pc.delete_index(index_name)]. *)
Definition teardown (pc : Client) (index_name : string) : Run unit :=
  remote (CallDeleteIndex index_name) (delete_index pc index_name).

(** [main()], lines 10-130. *)
Definition main (fuel : nat) : Run unit :=
  let model_name := "distilbert-base-nli-stsb-mean-tokens" in
  let* model := local (SentenceTransformer model_name) in
  let api_key := getenv "PINECONE_KEY" in
  let* pc := local (Pinecone api_key) in
  let* indexes := remote CallListIndexes (list_indexes pc) in
  print (MsgIndex indexes) >>
  let index_name := "example-index" in
  ensure_ready fuel pc index_name 768 euclidean {| cloud := "aws"; region := "us-east-1" |} >>
  let* indexes := remote CallListIndexes (list_indexes pc) in
  print (MsgIndex indexes) >>
  let* index := embed_and_upsert model pc index_name "example-namespace" sentences_to_index in
  let* stats := remote (CallDescribeIndexStats index) (describe_index_stats index) in
  print (MsgStats stats) >>
  let search_text := "Vector database are totally not useless" in
  let* query_result := search model index "example-namespace" search_text 3 true true in
  report query_result >>
  teardown pc index_name.

End Program.

(** ** Reading a trace *)

Section Traces.
Context `{Sdk}.

Definition is_create (ev : Event) : bool :=
  match ev with CallCreateIndex _ _ _ _ => true | _ => false end.

Definition is_describe (ev : Event) : bool :=
  match ev with CallDescribeIndex _ => true | _ => false end.

Definition is_sleep (ev : Event) : bool :=
  match ev with CallSleep _ => true | _ => false end.

Definition is_upsert (ev : Event) : bool :=
  match ev with CallUpsert _ _ _ => true | _ => false end.

(** The calls that change what the provider stores: creation, write,
    deletion. *)
Definition is_mutation (ev : Event) : bool :=
  match ev with
  | CallCreateIndex _ _ _ _ | CallUpsert _ _ _ | CallDeleteIndex _ => true
  | _ => false
  end.

(** What one turn of the wait loop may do on [index_name]: read its status,
    say it is waiting, sleep one second. *)
Definition is_poll_step (index_name : string) (ev : Event) : Prop :=
  ev = CallDescribeIndex index_name \/
  ev = Stdout (MsgWaiting index_name) \/
  ev = CallSleep 1.

Definition count (p : Event -> bool) (tr : list Event) : nat :=
  length (filter (fun ev => p ev = true) tr).

(** The texts of the [Text: "..."] lines of a trace, in order. *)
Definition printed_texts (tr : list Event) : list string :=
  omap (fun ev => match ev with Stdout (MsgText t) => Some t | _ => None end) tr.

(** The [(rank, id, score)] of the numbered lines of a trace, in order. *)
Definition printed_ranks (tr : list Event) : list (nat * string * Float) :=
  omap (fun ev => match ev with Stdout (MsgMatch i id s) => Some (i, id, s) | _ => None end) tr.

(** The creation requests of a trace, in order. *)
Definition created (tr : list Event) : list (string * Z * Metric * ServerlessSpec) :=
  omap (fun ev =>
          match ev with
          | CallCreateIndex name dimension metric spec => Some (name, dimension, metric, spec)
          | _ => None
          end) tr.

(** The batches a trace submits, in order: the index, the id and the vector
    of each record, the namespace. *)
Definition upserted (tr : list Event) : list (IndexHandle * list (string * list Float) * string) :=
  omap (fun ev =>
          match ev with
          | CallUpsert index vectors ns =>
              Some (index, (fun v => (vec_id v, vec_values v)) <$> vectors, ns)
          | _ => None
          end) tr.

Definition is_print (ev : Event) : bool :=
  match ev with Stdout _ => true | _ => false end.

(** [v] is the dictionary line 72 builds for [sentence]: its id, the vector
    the embedder gave for its text, and its text as the only metadata. *)
Definition embeds (model : Model) (sentence : Sentence) (v : VectorInfo Float) : Prop :=
  encode model (sent_text sentence) = inr (vec_values v) /\
  vec_id v = sent_id sentence /\
  vec_metadata v = {[ "sentence" := sent_text sentence ]}.

(** What the loop prints for one match: its numbered line, then its
    metadata and, when the metadata has a ['sentence'] entry, the text. *)
Definition match_lines (i : nat) (m : Match Float) : list Event :=
  Stdout (MsgMatch (i + 1) (match_id m) (match_score m)) ::
  match match_metadata m with
  | Some md =>
      Stdout (MsgMetadata md) ::
      match md !! "sentence" with
      | Some text => [Stdout (MsgText text)]
      | None => []
      end
  | None => [Stdout MsgNoMetadata]
  end.

(** The first sentence the embedder fails on, with the failure. *)
Fixpoint first_failure (model : Model) (sentences : list Sentence) : option (Sentence * Exn) :=
  match sentences with
  | [] => None
  | sentence :: rest =>
      match encode model (sent_text sentence) with
      | inl e => Some (sentence, e)
      | inr _ => first_failure model rest
      end
  end.

End Traces.

(** ** A provider and an embedder to run the script against *)

(** Modelled from the spec: the failures of the two external collaborators
    (section 7: a rejected creation, an unknown resource, a failed write or
    query, a failed embedding call).  The SDKs' own exception classes are not
    part of the repository. *)
Inductive StubError :=
  | NotFound (name : string)
  | AlreadyExists (name : string)
  | BadRequest (why : string)
  | Unauthorized
  | EncodeFailed (text : string).

(** Modelled from the spec: one resource of the vector storage provider
    (section 3, ResourceSpec: dimension, metric, placement), its progress from
    Creating to Ready (section 4.2, state machine) as the seconds left before
    it reports ready ([None]: it never does), and its records by namespace and
    id (glossary: namespace, upsert). *)
Record StubIndex (F : Type) := {
  ix_dimension : Z;
  ix_metric : Metric;
  ix_spec : ServerlessSpec;
  ix_remaining : option nat;
  ix_records : gmap string (gmap string (VectorInfo F))
}.
Arguments ix_dimension {F} _.
Arguments ix_metric {F} _.
Arguments ix_spec {F} _.
Arguments ix_remaining {F} _.
Arguments ix_records {F} _.

(** Modelled from the spec: what the spec leaves to the collaborators.  The
    order on scores and the score of a stored vector against the query
    vector under a metric (section 1: distance computation is delegated); the
    embedder, a function from text to a vector that may fail (section 6); the
    process environment; how long the provider takes to make a new resource
    ready; and whether it accepts the deletion of a name it does not know,
    on which section 6 is silent. *)
Record StubConfig (F : Type) := {
  cfg_leb : F -> F -> bool;
  cfg_score : Metric -> list F -> list F -> F;
  cfg_encode : string -> StubError + list F;
  cfg_getenv : string -> option string;
  cfg_creation_time : option nat;
  cfg_delete_absent_ok : bool
}.
Arguments cfg_leb {F} _.
Arguments cfg_score {F} _.
Arguments cfg_encode {F} _.
Arguments cfg_getenv {F} _.
Arguments cfg_creation_time {F} _.
Arguments cfg_delete_absent_ok {F} _.

Section Stub.
Context {F : Type} (cfg : StubConfig F).

Local Abbreviation StubWorld := (gmap string (StubIndex F)).

(** Modelled from the spec: "ordered by decreasing similarity (or increasing
    distance, depending on metric) -- best match first" (section 3,
    QueryResult).  Euclidean scores are distances, the other two are
    similarities. *)
Definition best_first (metric : Metric) (a b : F) : Prop :=
  match metric with
  | euclidean => cfg_leb cfg a b = true
  | cosine | dotproduct => cfg_leb cfg b a = true
  end.

(** Modelled from the spec: the same order, on the entries of a
    QueryResult. *)
Definition ranks_before (metric : Metric) (m1 m2 : Match F) : Prop :=
  best_first metric (match_score m1) (match_score m2).

#[export] Instance ranks_before_dec metric : RelDecision (ranks_before metric).
Proof. intros m1 m2. unfold ranks_before, best_first. destruct metric; apply _. Defined.

(** Modelled from the spec: one entry of a QueryResult (section 3): the id,
    the score, and the vector and the metadata when they are asked for. *)
Definition scored (metric : Metric) (vector : list F)
    (include_values include_metadata : bool) (v : VectorInfo F) : Match F :=
  {| match_id := vec_id v;
     match_score := cfg_score cfg metric vector (vec_values v);
     match_values := if include_values then vec_values v else [];
     match_metadata := if include_metadata then Some (vec_metadata v) else None |}.

(** Modelled from the spec: the records of one namespace (glossary:
    namespace). *)
Definition stored (ix : StubIndex F) (ns : string) : list (VectorInfo F) :=
  (map_to_list (default ∅ (ix_records ix !! ns))).*2.

(** Modelled from the spec: status-describe (section 6), with the boolean
    "ready" field the script reads. *)
Definition stub_describe (name : string) (ix : StubIndex F) : IndexModel :=
  {| index_name_of := name;
     dimension_of := ix_dimension ix;
     metric_of := ix_metric ix;
     status :=
       {| ready := bool_decide (ix_remaining ix = Some 0%nat);
          state := if bool_decide (ix_remaining ix = Some 0%nat)
                   then "Ready" else "Initializing" |} |}.

(** Modelled from the spec: list-resources (section 6). *)
Definition stub_list_indexes (pc : string) (w : StubWorld)
    : (StubError + list IndexModel) * StubWorld :=
  (inr ((fun p => stub_describe p.1 p.2) <$> map_to_list w), w).

(** Modelled from the spec: "query whether a resource named [spec.name]
    exists" (section 4.1, step 1). *)
Definition stub_has_index (pc name : string) (w : StubWorld)
    : (StubError + bool) * StubWorld :=
  (inr (bool_decide (is_Some (w !! name))), w).

(** Modelled from the spec: creation (section 4.1, step 2 and 4): a duplicate
    name and a dimension that is not positive are rejected; the new resource
    starts in Creating. *)
Definition stub_create_index (pc name : string) (dimension : Z) (metric : Metric)
    (spec : ServerlessSpec) (w : StubWorld) : (StubError + unit) * StubWorld :=
  match w !! name with
  | Some _ => (inl (AlreadyExists name), w)
  | None =>
      if dimension <=? 0 then (inl (BadRequest "dimension"), w)
      else (inr tt,
            <[name := {| ix_dimension := dimension; ix_metric := metric; ix_spec := spec;
                         ix_remaining := cfg_creation_time cfg; ix_records := ∅ |}]> w)
  end.

(** Modelled from the spec: describe-resource (section 6); an unknown name
    is "not found" (section 2). *)
Definition stub_describe_index (pc name : string) (w : StubWorld)
    : (StubError + IndexModel) * StubWorld :=
  match w !! name with
  | Some ix => (inr (stub_describe name ix), w)
  | None => (inl (NotFound name), w)
  end.

(** Modelled from the spec: the ResourceHandle (section 3), a reference to
    a named resource: the name itself. *)
Definition stub_Index (pc name : string) (w : StubWorld)
    : (StubError + string) * StubWorld :=
  match w !! name with
  | Some _ => (inr name, w)
  | None => (inl (NotFound name), w)
  end.

(** Modelled from the spec: deletion (section 4.1, teardown; section 6,
    delete-resource).  For a name the provider does not know the
    configuration decides between accepting and rejecting. *)
Definition stub_delete_index (pc name : string) (w : StubWorld)
    : (StubError + unit) * StubWorld :=
  match w !! name with
  | Some _ => (inr tt, delete name w)
  | None =>
      if cfg_delete_absent_ok cfg then (inr tt, w) else (inl (NotFound name), w)
  end.

(** Modelled from the spec: upsert (section 4.2): create-or-replace, keyed by
    id within the namespace; the whole batch is accepted or fails.  The
    provider refuses a batch with a vector of another length than the
    resource's dimension. *)
Definition stub_upsert (index : string) (vectors : list (VectorInfo F)) (ns : string)
    (w : StubWorld) : (StubError + nat) * StubWorld :=
  match w !! index with
  | None => (inl (NotFound index), w)
  | Some ix =>
      if forallb (fun v => Z.of_nat (length (vec_values v)) =? ix_dimension ix) vectors then
        let records :=
          foldl (fun m v => <[vec_id v := v]> m) (default ∅ (ix_records ix !! ns)) vectors in
        (inr (length vectors),
         <[index := {| ix_dimension := ix_dimension ix; ix_metric := ix_metric ix;
                       ix_spec := ix_spec ix; ix_remaining := ix_remaining ix;
                       ix_records := <[ns := records]> (ix_records ix) |}]> w)
      else (inl (BadRequest "dimension"), w)
  end.

(** Modelled from the spec: the number of records of each namespace of a
    resource. *)
Definition stub_describe_index_stats (index : string) (w : StubWorld)
    : (StubError + gmap string nat) * StubWorld :=
  match w !! index with
  | Some ix => (inr (size <$> ix_records ix), w)
  | None => (inl (NotFound index), w)
  end.

(** Modelled from the spec: the top-K query (section 4.2 and glossary): the
    [top_k] records of the namespace nearest to the query vector under the
    resource's metric, best first; all of them when there are fewer. *)
Definition stub_query (index : string) (vector : list F) (top_k : Z) (ns : string)
    (include_values include_metadata : bool) (w : StubWorld)
    : (StubError + QueryResponse F) * StubWorld :=
  match w !! index with
  | None => (inl (NotFound index), w)
  | Some ix =>
      if top_k <=? 0 then (inl (BadRequest "top_k"), w)
      else
        let candidates :=
          scored (ix_metric ix) vector include_values include_metadata <$> stored ix ns in
        let ranked := merge_sort (ranks_before (ix_metric ix)) candidates in
        (inr {| matches := take (Z.to_nat top_k) ranked; namespace := ns |}, w)
  end.

(** Modelled from the spec: time passing (section 4.1: creation is
    asynchronous on the provider side): every resource still in Creating
    gets [secs] seconds nearer to Ready. *)
Definition stub_sleep (secs : Z) (w : StubWorld) : StubWorld :=
  (fun ix =>
     {| ix_dimension := ix_dimension ix; ix_metric := ix_metric ix; ix_spec := ix_spec ix;
        ix_remaining := (fun n => (n - Z.to_nat secs)%nat) <$> ix_remaining ix;
        ix_records := ix_records ix |}) <$> w.

(** Modelled from the spec: records are keyed by id within a namespace
    (section 3, Record; glossary, upsert): every record the provider holds is
    stored under its own id.  It holds of the empty provider and every call
    keeps it. *)
Definition stub_wf (w : StubWorld) : Prop :=
  forall index ix ns records id v,
    w !! index = Some ix -> ix_records ix !! ns = Some records ->
    records !! id = Some v -> vec_id v = id.

(** Modelled from the spec: the two collaborators of section 6 as one
    [Sdk]. *)
Definition stub_sdk : Sdk := {|
  Float := F;
  Exn := StubError;
  World := StubWorld;
  Model := string;
  Client := string;
  IndexHandle := string;
  IndexList := list IndexModel;
  UpsertResponse := nat;
  IndexStats := gmap string nat;
  getenv := cfg_getenv cfg;
  SentenceTransformer := fun model_name => inr model_name;
  encode := fun _ text => cfg_encode cfg text;
  Pinecone := fun api_key =>
    match api_key with Some key => inr key | None => inl Unauthorized end;
  list_indexes := stub_list_indexes;
  has_index := stub_has_index;
  create_index := stub_create_index;
  describe_index := stub_describe_index;
  Index := stub_Index;
  delete_index := stub_delete_index;
  upsert := stub_upsert;
  describe_index_stats := stub_describe_index_stats;
  query := stub_query;
  sleep := stub_sleep
|}.

End Stub.

(** ** A stub over integers

    Integer components stand for floats; the scores are the squared
    Euclidean distance and the dot product. *)

(** Modelled from the spec: a distance for the euclidean metric (section 3,
    ResourceSpec), over integers. *)
Fixpoint squared_distance (u v : list Z) : Z :=
  match u, v with
  | x :: u', y :: v' => (x - y) * (x - y) + squared_distance u' v'
  | _, _ => 0
  end.

(** Modelled from the spec: a similarity for the cosine and dot metrics,
    over integers. *)
Fixpoint dot_product (u v : list Z) : Z :=
  match u, v with
  | x :: u', y :: v' => x * y + dot_product u' v'
  | _, _ => 0
  end.

(** Modelled from the spec: the score under each metric. *)
Definition int_score (metric : Metric) (u v : list Z) : Z :=
  match metric with
  | euclidean => squared_distance u v
  | cosine | dotproduct => dot_product u v
  end.

(** Modelled from the spec: a stub embedder (section 8), of a given
    dimension: the length of the text, then zeros. *)
Definition length_embedder (dimension : nat) (text : string) : StubError + list Z :=
  inr (Z.of_nat (String.length text) :: replicate (dimension - 1) 0).

(** Modelled from the spec: the stub embedder of the scenarios of section 8,
    of two components: it knows two texts and fails on every other one. *)
Definition letter_embedder (text : string) : StubError + list Z :=
  if bool_decide (text = "A") then inr [1; 0]
  else if bool_decide (text = "B") then inr [0; 3]
  else inl (EncodeFailed text).

(** Modelled from the spec: a provider and an embedder over integers. *)
Definition int_config (encoder : string -> StubError + list Z)
    (creation_time : option nat) (delete_absent_ok : bool) : StubConfig Z :=
  {| cfg_leb := Z.leb;
     cfg_score := int_score;
     cfg_encode := encoder;
     cfg_getenv := fun _ => Some "stub-key";
     cfg_creation_time := creation_time;
     cfg_delete_absent_ok := delete_absent_ok |}.

(** The script's index takes two seconds to become ready, the embedder gives
    768 components, deleting an unknown name is rejected. *)
Definition demo_config : StubConfig Z := int_config (length_embedder 768) (Some 2%nat) false.

(** The same provider with an index that never becomes ready. *)
Definition stuck_config : StubConfig Z := int_config (length_embedder 768) None false.

(** The same provider with an embedder of two components. *)
Definition short_config : StubConfig Z := int_config (length_embedder 2) (Some 0%nat) false.

(** A provider that makes a new index ready at once, with the embedder of
    two texts. *)
Definition letter_config : StubConfig Z := int_config letter_embedder (Some 0%nat) false.

Definition aws_us_east_1 : ServerlessSpec := {| cloud := "aws"; region := "us-east-1" |}.

(** The provider once the script's index is ready, before anything is
    written to it. *)
Definition ready_world : gmap string (StubIndex Z) :=
  {[ "example-index" :=
       {| ix_dimension := 768; ix_metric := euclidean; ix_spec := aws_us_east_1;
          ix_remaining := Some 0%nat; ix_records := ∅ |} ]}.

(** A provider with one ready index of dimension 2 and nothing in it. *)
Definition letter_world : gmap string (StubIndex Z) :=
  {[ "letters" :=
       {| ix_dimension := 2; ix_metric := euclidean; ix_spec := aws_us_east_1;
          ix_remaining := Some 0%nat; ix_records := ∅ |} ]}.

(** The same index holding the records of the two texts in one namespace. *)
Definition two_letters : gmap string (VectorInfo Z) :=
  {[ "v1" := {| vec_id := "v1"; vec_values := [1; 0];
                vec_metadata := {[ "sentence" := "A" ]} |};
     "v2" := {| vec_id := "v2"; vec_values := [0; 3];
                vec_metadata := {[ "sentence" := "B" ]} |} ]}.

Definition letter_index : StubIndex Z :=
  {| ix_dimension := 2; ix_metric := euclidean; ix_spec := aws_us_east_1;
     ix_remaining := Some 0%nat; ix_records := {[ "ns" := two_letters ]} |}.

Definition two_letter_world : gmap string (StubIndex Z) := {[ "letters" := letter_index ]}.

(** ** More readers of a trace *)

Section MoreTraces.
Context `{Sdk}.

Definition is_delete (ev : Event) : bool :=
  match ev with CallDeleteIndex _ => true | _ => false end.

Definition is_query (ev : Event) : bool :=
  match ev with CallQuery _ _ _ _ _ _ => true | _ => false end.

(** The line line 114 prints for a match without metadata. *)
Definition is_no_metadata_line (ev : Event) : bool :=
  match ev with Stdout MsgNoMetadata => true | _ => false end.

(** Lines 109-112: the text the report prints for a match, when the match
    has metadata and the metadata has a ['sentence'] entry. *)
Definition sentence_of (m : Match Float) : option string :=
  match match_metadata m with
  | Some md => md !! "sentence"
  | None => None
  end.

(** The world after [k] turns of the loop of lines 44-46 that found the
    index not ready: each turn reads the status, then sleeps one second. *)
Fixpoint world_after_polls (pc : Client) (index_name : string) (k : nat) (w : World) : World :=
  match k with
  | O => w
  | S k' => world_after_polls pc index_name k' (sleep 1 (describe_index pc index_name w).2)
  end.

(** What [k] such turns do. *)
Fixpoint waiting_turns (index_name : string) (k : nat) : list Event :=
  match k with
  | O => []
  | S k' =>
      CallDescribeIndex index_name :: Stdout (MsgWaiting index_name) :: CallSleep 1
      :: waiting_turns index_name k'
  end.

(** A run that either stops before line 130, and then has asked for no
    deletion and has not ended normally, or has the deletion of
    [index_name] as the last thing it did. *)
Definition deletes_last_or_never {A} (index_name : string)
    (o : Outcome Exn World Event A) : Prop :=
  exists tr,
    Forall (fun ev => is_delete ev = false) tr /\
    ((trace o = tr /\ forall a, result o <> Ok a) \/
     trace o = tr ++ [CallDeleteIndex index_name]).

End MoreTraces.

(** * Proofs *)

(** ** How runs compose *)

Section RunFacts.
Context `{Sdk}.

Lemma bind_result {A B} (m : Run A) (k : A -> Run B) w :
  result (bind m k w) =
  match result (m w) with
  | Ok a => result (k a (final (m w)))
  | Raise e => Raise e
  | OutOfFuel => OutOfFuel
  end.
Proof. unfold bind. by destruct (result (m w)). Qed.

Lemma bind_final {A B} (m : Run A) (k : A -> Run B) w :
  final (bind m k w) =
  match result (m w) with
  | Ok a => final (k a (final (m w)))
  | _ => final (m w)
  end.
Proof. unfold bind. by destruct (result (m w)). Qed.

Lemma bind_trace {A B} (m : Run A) (k : A -> Run B) w :
  trace (bind m k w) =
  trace (m w) ++
  match result (m w) with
  | Ok a => trace (k a (final (m w)))
  | _ => []
  end.
Proof. unfold bind. destruct (result (m w)); simpl; by rewrite ?app_nil_r. Qed.

Lemma remote_result {A} ev (op : World -> (Exn + A) * World) w :
  result (remote ev op w) = answer (op w).1.
Proof. done. Qed.

Lemma remote_final {A} ev (op : World -> (Exn + A) * World) w :
  final (remote ev op w) = (op w).2.
Proof. done. Qed.

Lemma remote_trace {A} ev (op : World -> (Exn + A) * World) w :
  trace (remote ev op w) = [ev].
Proof. done. Qed.

Lemma print_result msg w : result (print msg w) = Ok tt.
Proof. done. Qed.

Lemma print_final msg w : final (print msg w) = w.
Proof. done. Qed.

Lemma print_trace msg w : trace (print msg w) = [Stdout msg].
Proof. done. Qed.

Lemma ret_result {A} (a : A) w : result (ret a w) = Ok a.
Proof. done. Qed.

Lemma ret_final {A} (a : A) w : final (ret a w) = w.
Proof. done. Qed.

Lemma ret_trace {A} (a : A) w : trace (ret a w) = [].
Proof. done. Qed.

Lemma local_result {A} (r : Exn + A) w : result (local r w) = answer r.
Proof. done. Qed.

Lemma local_final {A} (r : Exn + A) w : final (local r w) = w.
Proof. done. Qed.

Lemma local_trace {A} (r : Exn + A) w : trace (local r w) = [].
Proof. done. Qed.

Lemma sleep_result secs w : result (time_sleep secs w) = Ok tt.
Proof. done. Qed.

Lemma sleep_final secs w : final (time_sleep secs w) = sleep secs w.
Proof. done. Qed.

Lemma sleep_trace secs w : trace (time_sleep secs w) = [CallSleep secs].
Proof. done. Qed.

Lemma outcome_eq {A} (o o' : Outcome Exn World Event A) :
  result o = result o' -> final o = final o' -> trace o = trace o' -> o = o'.
Proof. destruct o, o'; simpl; congruence. Qed.

Lemma count_app p (tr1 tr2 : list Event) : count p (tr1 ++ tr2) = (count p tr1 + count p tr2)%nat.
Proof. unfold count. by rewrite filter_app, length_app. Qed.

Lemma count_cons p ev (tr : list Event) :
  count p (ev :: tr) = ((if p ev then 1 else 0) + count p tr)%nat.
Proof.
  unfold count. destruct (p ev) eqn:Hp.
  - by rewrite filter_cons_True.
  - rewrite filter_cons_False; [done|]. by rewrite Hp.
Qed.

Lemma count_zero_Forall p (tr : list Event) :
  Forall (fun ev => p ev = false) tr -> count p tr = 0%nat.
Proof.
  unfold count. induction 1 as [|ev tr Hev _ IH]; [done|].
  rewrite filter_cons_False; [done|]. by rewrite Hev.
Qed.

End RunFacts.

Create Rewrite HintDb run.
#[export] Hint Rewrite
  @bind_result @bind_final @bind_trace
  @remote_result @remote_final @remote_trace
  @print_result @print_final @print_trace
  @ret_result @ret_final @ret_trace
  @local_result @local_final @local_trace
  @sleep_result @sleep_final @sleep_trace : run.

(** One step of a run: rewrite with the equations above, then compute the
    case analysis they expose. *)
Ltac run_step := repeat progress (autorewrite with run; cbv beta; cbn [answer fst snd app]).

(** ** The embedding loop (lines 65-76) *)

Section EmbedFacts.
Context `{Sdk}.

Lemma embed_sentences_raise model sentence rest acc w e :
  encode model (sent_text sentence) = inl e ->
  embed_sentences model (sentence :: rest) acc w =
  {| result := Raise e; final := w; trace := [] |}.
Proof. intros He. simpl. unfold bind, local. simpl. by rewrite He. Qed.

Lemma embed_sentences_next model sentence rest acc w embedding :
  encode model (sent_text sentence) = inr embedding ->
  let o := embed_sentences model rest (acc ++ [vector_info_of sentence embedding]) w in
  embed_sentences model (sentence :: rest) acc w =
  {| result := result o; final := final o;
     trace := Stdout (MsgEmbedding embedding)
              :: Stdout (MsgVectorInfo (vector_info_of sentence embedding)) :: trace o |}.
Proof.
  intros He o. apply outcome_eq; simpl;
    rewrite ?bind_result, ?bind_final, ?bind_trace; unfold local; simpl; rewrite He; simpl;
    rewrite ?bind_result, ?bind_final, ?bind_trace; simpl;
    rewrite ?bind_result, ?bind_final, ?bind_trace; simpl; done.
Qed.

(** The loop leaves the world as it is, only prints, and ends with the list
    it was given extended by one dictionary per sentence, in order, or with
    the failure of the first embedding call that fails. *)
Lemma embed_sentences_run model sentences acc w :
  let o := embed_sentences model sentences acc w in
  final o = w /\
  Forall (fun ev => is_print ev = true) (trace o) /\
  match result o with
  | Ok vector_data =>
      first_failure model sentences = None /\
      exists vs, vector_data = acc ++ vs /\ Forall2 (embeds model) sentences vs
  | Raise e => exists sentence, first_failure model sentences = Some (sentence, e)
  | OutOfFuel => False
  end.
Proof.
  revert acc. induction sentences as [|sentence rest IH]; intros acc.
  - simpl. split_and!; [done|constructor|done|]. exists []. by rewrite app_nil_r.
  - destruct (encode model (sent_text sentence)) as [e|embedding] eqn:He.
    + rewrite (embed_sentences_raise _ _ _ _ _ _ He). simpl. rewrite He.
      split_and!; [done|constructor|]. by exists sentence.
    + rewrite (embed_sentences_next _ _ _ _ _ _ He). simpl. rewrite He.
      destruct (IH (acc ++ [vector_info_of sentence embedding])) as (Hw & Htr & Hres).
      split_and!; [done|by repeat constructor|].
      destruct (result _) as [vector_data| |]; [|done..].
      destruct Hres as (Hnone & vs & -> & Hvs). split; [done|].
      exists (vector_info_of sentence embedding :: vs). split.
      * by rewrite <- app_assoc.
      * constructor; [|done]. by repeat split.
Qed.

Lemma embed_run model sentences w :
  let o := embed model sentences w in
  final o = w /\
  Forall (fun ev => is_print ev = true) (trace o) /\
  match result o with
  | Ok vector_data =>
      first_failure model sentences = None /\ Forall2 (embeds model) sentences vector_data
  | Raise e => exists sentence, first_failure model sentences = Some (sentence, e)
  | OutOfFuel => False
  end.
Proof.
  intros o. subst o. unfold embed.
  destruct (embed_sentences_run model sentences [] w) as (Hw & Htr & Hres).
  rewrite bind_result, bind_final, bind_trace.
  destruct (result (embed_sentences model sentences [] w)) as [vector_data| |] eqn:Hr.
  - rewrite ?bind_result, ?bind_final, ?bind_trace. simpl.
    destruct Hres as (Hnone & vs & -> & Hvs).
    split_and!; [done| |done..].
    apply Forall_app. split; [done|by repeat constructor].
  - rewrite app_nil_r. done.
  - done.
Qed.

End EmbedFacts.

(** ** Embedding and upserting (lines 65-82) *)

Section UpsertFacts.
Context `{Sdk}.

Lemma Forall2_embeds_ids model sentences (vector_data : list (VectorInfo Float)) :
  Forall2 (embeds model) sentences vector_data ->
  length vector_data = length sentences /\
  forall i : nat, vec_id <$> vector_data !! i = sent_id <$> sentences !! i.
Proof.
  intros Hall. split; [symmetry; by eapply Forall2_length|].
  intros i. destruct (sentences !! i) as [sentence|] eqn:Hs.
  - destruct (Forall2_lookup_l _ _ _ _ _ Hall Hs) as (v & -> & _ & Hid & _).
    simpl. by rewrite Hid.
  - apply lookup_ge_None in Hs. rewrite (Forall2_length _ _ _ Hall) in Hs.
    apply lookup_ge_None in Hs. by rewrite Hs.
Qed.

Lemma embed_result_of_first_failure model sentences w sentence e :
  first_failure model sentences = Some (sentence, e) ->
  result (embed model sentences w) = Raise e.
Proof.
  intros Hfail. destruct (embed_run model sentences w) as (_ & _ & Hres).
  destruct (result (embed model sentences w)) as [vector_data|e'|]; [|..|done].
  - destruct Hres as [Hnone _]. congruence.
  - destruct Hres as [sentence' Hfail']. congruence.
Qed.

Lemma embed_result_of_no_failure model sentences w :
  first_failure model sentences = None ->
  exists vector_data,
    result (embed model sentences w) = Ok vector_data /\
    Forall2 (embeds model) sentences vector_data.
Proof.
  intros Hnone. destruct (embed_run model sentences w) as (_ & _ & Hres).
  destruct (result (embed model sentences w)) as [vector_data|e'|]; [|..|done].
  - exists vector_data. by destruct Hres.
  - destruct Hres as [sentence' Hfail']. congruence.
Qed.

Lemma first_failure_fails model sentences sentence e :
  first_failure model sentences = Some (sentence, e) ->
  sentence ∈ sentences /\ encode model (sent_text sentence) = inl e.
Proof.
  induction sentences as [|s rest IH]; simpl; [done|].
  destruct (encode model (sent_text s)) as [e'|embedding] eqn:He.
  - intros [= <- <-]. split; [by left|done].
  - intros Hrest. destruct (IH Hrest). split; [by right|done].
Qed.

(** When an embedding call fails the block stops there: what it did is what
    the loop did. *)
Lemma embed_and_upsert_raise model pc index_name ns sentences w e :
  result (embed model sentences w) = Raise e ->
  embed_and_upsert model pc index_name ns sentences w =
  {| result := Raise e; final := w; trace := trace (embed model sentences w) |}.
Proof.
  intros Hr. destruct (embed_run model sentences w) as (Hw & _ & _).
  unfold embed_and_upsert. apply outcome_eq; simpl.
  - by rewrite bind_result, Hr.
  - by rewrite bind_final, Hr.
  - by rewrite bind_trace, Hr, app_nil_r.
Qed.

(** When every embedding call succeeds the block asks for the index and,
    when it gets it, submits the whole list in one call. *)
Lemma embed_and_upsert_trace model pc index_name ns sentences w vector_data :
  result (embed model sentences w) = Ok vector_data ->
  trace (embed_and_upsert model pc index_name ns sentences w) =
  trace (embed model sentences w) ++
  CallIndex index_name ::
  match (Index pc index_name w).1 with
  | inl _ => []
  | inr index =>
      CallUpsert index vector_data ns ::
      match (upsert index vector_data ns (Index pc index_name w).2).1 with
      | inl _ => []
      | inr upsert_result => [Stdout (MsgUpsertResult upsert_result)]
      end
  end.
Proof.
  intros Hr. destruct (embed_run model sentences w) as (Hw & _ & _).
  unfold embed_and_upsert. rewrite bind_trace, Hr, Hw. f_equal. run_step. f_equal.
  destruct (Index pc index_name w).1 as [e|index]; run_step; [done|]. f_equal.
  destruct (upsert index vector_data ns (Index pc index_name w).2).1; by run_step.
Qed.

Lemma first_failure_none model sentences :
  (forall sentence, sentence ∈ sentences ->
     exists embedding, encode model (sent_text sentence) = inr embedding) ->
  first_failure model sentences = None.
Proof.
  induction sentences as [|s rest IH]; intros Hall; [done|]. simpl.
  destruct (Hall s) as [embedding ->]; [by left|].
  apply IH. intros sentence Hin. apply Hall. by right.
Qed.

(** When every call succeeds the block returns the index it got and leaves
    the world the upsert left. *)
Lemma embed_and_upsert_ok model pc index_name ns sentences w vector_data index upsert_result :
  result (embed model sentences w) = Ok vector_data ->
  (Index pc index_name w).1 = inr index ->
  (upsert index vector_data ns (Index pc index_name w).2).1 = inr upsert_result ->
  result (embed_and_upsert model pc index_name ns sentences w) = Ok index /\
  final (embed_and_upsert model pc index_name ns sentences w) =
    (upsert index vector_data ns (Index pc index_name w).2).2.
Proof.
  intros Hr Hindex Hupsert. destruct (embed_run model sentences w) as (Hw & _ & _).
  unfold embed_and_upsert. rewrite bind_result, bind_final, Hr, Hw. cbv beta.
  rewrite bind_result, bind_final, remote_result, remote_final, Hindex. cbn [answer].
  rewrite bind_result, bind_final, remote_result, remote_final, Hupsert. cbn [answer].
  by run_step.
Qed.

(** Whatever the block submits is the list the loop built, in the namespace
    it was given. *)
Lemma upsert_payload model pc index_name ns sentences w index vector_data ns' :
  CallUpsert index vector_data ns' ∈
    trace (embed_and_upsert model pc index_name ns sentences w) ->
  ns' = ns /\ Forall2 (embeds model) sentences vector_data.
Proof.
  destruct (embed_run model sentences w) as (_ & Htr & Hres).
  assert (Hprints : CallUpsert index vector_data ns' ∉ trace (embed model sentences w)).
  { intros Hin. rewrite Forall_forall in Htr. by specialize (Htr _ Hin). }
  destruct (result (embed model sentences w)) as [vd|e|] eqn:Hr; [|..|done].
  - rewrite (embed_and_upsert_trace _ pc index_name ns _ _ _ Hr).
    destruct Hres as [_ Hall].
    intros [Hin|Hin]%elem_of_app; [done|].
    apply elem_of_cons in Hin as [Hin|Hin]; [done|].
    destruct (Index pc index_name w).1 as [e|index0]; [by apply elem_of_nil in Hin|].
    apply elem_of_cons in Hin as [Hin|Hin].
    + by injection Hin as -> -> ->.
    + destruct (upsert _ _ _ _).1; [by apply elem_of_nil in Hin|].
      apply elem_of_cons in Hin as [Hin|Hin]; [done|by apply elem_of_nil in Hin].
  - by rewrite (embed_and_upsert_raise _ pc index_name ns _ _ _ Hr).
Qed.

(** C4: for every sequence of records and every embedder, [embed] (lines
    65-76) gives one dictionary per record, in input order: when it returns,
    the list has the length of the input and its i-th id is the i-th input
    id.  It always ends, and it fails only when an embedding call fails. *)
Theorem embed_preserves_length_and_order model sentences w :
  match result (embed model sentences w) with
  | Ok vector_data =>
      length vector_data = length sentences /\
      forall i : nat, vec_id <$> vector_data !! i = sent_id <$> sentences !! i
  | Raise e =>
      exists sentence, sentence ∈ sentences /\ encode model (sent_text sentence) = inl e
  | OutOfFuel => False
  end.
Proof.
  destruct (embed_run model sentences w) as (_ & _ & Hres).
  destruct (result (embed model sentences w)) as [vector_data|e|]; [|..|done].
  - destruct Hres as [_ Hall]. by eapply Forall2_embeds_ids.
  - destruct Hres as [sentence Hfail]. exists sentence. by eapply first_failure_fails.
Qed.

(** C5, amended: when an embedding call fails, lines 65-82 end with the
    embedder's own failure, as it was raised (the script wraps nothing and
    adds no record id); the whole batch is dropped: the world is left as it
    was and the run made no remote call at all, so no record of the batch is
    written. *)
Theorem embedding_failure_rejects_batch model pc index_name ns sentences w sentence e :
  first_failure model sentences = Some (sentence, e) ->
  let o := embed_and_upsert model pc index_name ns sentences w in
  result o = Raise e /\
  encode model (sent_text sentence) = inl e /\
  final o = w /\
  Forall (fun ev => is_print ev = true) (trace o) /\
  count is_upsert (trace o) = 0%nat.
Proof.
  intros Hfail o. subst o.
  pose proof (embed_result_of_first_failure _ _ w _ _ Hfail) as Hr.
  rewrite (embed_and_upsert_raise _ pc index_name ns _ _ _ Hr). simpl.
  destruct (embed_run model sentences w) as (_ & Htr & _).
  split_and!; [done|by eapply first_failure_fails|done|done|].
  apply count_zero_Forall. eapply Forall_impl; [exact Htr|].
  by intros []. 
Qed.

(** C2, amended: the script compares no vector length with the dimension of
    the index.  Once every embedding call has succeeded and [pc.Index] has
    given the index, the batch is submitted, in one call, whatever the
    lengths of its vectors; each submitted vector is the embedder's output
    for the record's text, neither truncated nor padded. *)
Theorem upsert_submits_embedder_output model pc index_name ns sentences w index :
  first_failure model sentences = None ->
  (Index pc index_name w).1 = inr index ->
  let o := embed_and_upsert model pc index_name ns sentences w in
  exists vector_data,
    Forall2 (embeds model) sentences vector_data /\
    CallUpsert index vector_data ns ∈ trace o /\
    count is_upsert (trace o) = 1%nat.
Proof.
  intros Hnone Hindex o. subst o.
  destruct (embed_result_of_no_failure _ _ w Hnone) as (vector_data & Hr & Hall).
  exists vector_data. split; [done|].
  rewrite (embed_and_upsert_trace _ pc index_name ns _ _ _ Hr), Hindex.
  destruct (embed_run model sentences w) as (_ & Htr & _).
  split.
  - apply elem_of_app. right. right. left.
  - rewrite count_app, (count_zero_Forall is_upsert).
    + rewrite !count_cons. simpl.
      destruct (upsert _ _ _ _).1; [done|]. by rewrite count_cons.
    + eapply Forall_impl; [exact Htr|]. by intros [].
Qed.

End UpsertFacts.

(** ** Creating the index and waiting for it (lines 27-47) *)

Section WaitFacts.
Context `{Sdk}.

Lemma Forall_trace_bind {A B} (P : Event -> Prop) (m : Run A) (k : A -> Run B) w :
  Forall P (trace (m w)) ->
  (forall a w', Forall P (trace (k a w'))) ->
  Forall P (trace (bind m k w)).
Proof.
  intros Hm Hk. rewrite bind_trace. apply Forall_app. split; [done|].
  destruct (result (m w)); [apply Hk|constructor..].
Qed.

Lemma count_bind_le {A B} p (m : Run A) (k : A -> Run B) (a b : nat) w :
  (count p (trace (m w)) <= a)%nat ->
  (forall x w', (count p (trace (k x w')) <= b)%nat) ->
  (count p (trace (bind m k w)) <= a + b)%nat.
Proof.
  intros Hm Hk. rewrite bind_trace, count_app.
  destruct (result (m w)) as [x| |].
  - specialize (Hk x (final (m w))). lia.
  - unfold count at 2. simpl. lia.
  - unfold count at 2. simpl. lia.
Qed.

(** The guard of lines 27-41, case by case on what [pc.has_index] answers. *)
Lemma create_if_absent_run pc index_name dimension metric spec w :
  create_if_absent pc index_name dimension metric spec w =
  match (has_index pc index_name w).1 with
  | inl e =>
      {| result := Raise e; final := (has_index pc index_name w).2;
         trace := [CallHasIndex index_name] |}
  | inr true =>
      {| result := Ok tt; final := (has_index pc index_name w).2;
         trace := [CallHasIndex index_name] |}
  | inr false =>
      let w1 := (has_index pc index_name w).2 in
      {| result := answer (create_index pc index_name dimension metric spec w1).1;
         final := (create_index pc index_name dimension metric spec w1).2;
         trace := [CallHasIndex index_name;
                   CallCreateIndex index_name dimension metric spec] |}
  end.
Proof.
  unfold create_if_absent.
  apply outcome_eq; run_step; destruct (has_index pc index_name w).1 as [e|[|]]; by run_step.
Qed.

(** One turn of the loop of lines 44-46. *)
Lemma wait_until_ready_turn fuel pc index_name w :
  wait_until_ready (S fuel) pc index_name w =
  let w1 := (describe_index pc index_name w).2 in
  match (describe_index pc index_name w).1 with
  | inl e => {| result := Raise e; final := w1; trace := [CallDescribeIndex index_name] |}
  | inr description =>
      if ready (status description) then
        {| result := Ok tt; final := w1; trace := [CallDescribeIndex index_name] |}
      else
        let o := wait_until_ready fuel pc index_name (sleep 1 w1) in
        {| result := result o; final := final o;
           trace := CallDescribeIndex index_name :: Stdout (MsgWaiting index_name)
                    :: CallSleep 1 :: trace o |}
  end.
Proof.
  cbn [wait_until_ready].
  apply outcome_eq; run_step;
    destruct (describe_index pc index_name w).1 as [e|description]; run_step; try done;
    destruct (ready (status description)); by run_step.
Qed.

(** The loop only reads the status, says it is waiting and sleeps. *)
Lemma wait_until_ready_polls fuel pc index_name w :
  Forall (is_poll_step index_name) (trace (wait_until_ready fuel pc index_name w)).
Proof.
  revert w. induction fuel as [|fuel IH]; intros w; [constructor|].
  rewrite wait_until_ready_turn. cbv zeta.
  destruct (describe_index pc index_name w).1 as [e|description].
  - repeat constructor.
  - destruct (ready (status description)); simpl.
    + repeat constructor.
    + constructor; [by left|]. constructor; [by right; left|].
      constructor; [by right; right|]. apply IH.
Qed.

Lemma poll_step_no_mutation index_name ev :
  is_poll_step index_name ev -> is_mutation ev = false /\ is_create ev = false.
Proof. by intros [->|[->| ->]]. Qed.

(** A resource that never reports ready keeps the loop turning: after
    [fuel] evaluations of its condition it has read the status [fuel] times,
    slept [fuel] times and has not ended. *)
Lemma wait_until_ready_never (never_ready : World -> Prop) pc index_name :
  (forall w, never_ready w ->
     exists description,
       (describe_index pc index_name w).1 = inr description /\
       ready (status description) = false /\
       never_ready (sleep 1 (describe_index pc index_name w).2)) ->
  forall fuel w, never_ready w ->
    let o := wait_until_ready fuel pc index_name w in
    result o = OutOfFuel /\
    count is_describe (trace o) = fuel /\
    count is_sleep (trace o) = fuel.
Proof.
  intros Hnever fuel. induction fuel as [|fuel IH]; intros w Hw; [done|].
  destruct (Hnever w Hw) as (description & Hd & Hready & Hw').
  cbv zeta. rewrite wait_until_ready_turn. cbv zeta. rewrite Hd, Hready. simpl.
  destruct (IH _ Hw') as (Hres & Hdescribes & Hsleeps).
  split; [done|]. rewrite !count_cons. simpl. split; congruence.
Qed.

(** When the loop ends normally, the last status it read was ready. *)
Lemma wait_until_ready_ok (settled : World -> Prop) pc index_name :
  (forall w description,
     (describe_index pc index_name w).1 = inr description ->
     ready (status description) = true ->
     settled (describe_index pc index_name w).2) ->
  forall fuel w,
    result (wait_until_ready fuel pc index_name w) = Ok tt ->
    settled (final (wait_until_ready fuel pc index_name w)).
Proof.
  intros Henter fuel. induction fuel as [|fuel IH]; intros w; [done|].
  rewrite wait_until_ready_turn. cbv zeta.
  destruct (describe_index pc index_name w).1 as [e|description] eqn:Hd; [done|].
  destruct (ready (status description)) eqn:Hready; simpl.
  - intros _. by eapply Henter.
  - apply IH.
Qed.

Lemma ensure_ready_result fuel pc index_name dimension metric spec w :
  result (ensure_ready fuel pc index_name dimension metric spec w) =
  match result (create_if_absent pc index_name dimension metric spec w) with
  | Ok _ =>
      result (wait_until_ready fuel pc index_name
                (final (create_if_absent pc index_name dimension metric spec w)))
  | Raise e => Raise e
  | OutOfFuel => OutOfFuel
  end.
Proof.
  unfold ensure_ready. run_step.
  destruct (result (create_if_absent _ _ _ _ _ _)); [|done..].
  run_step. by destruct (result (wait_until_ready _ _ _ _)) as [[]| |].
Qed.

Lemma ensure_ready_final fuel pc index_name dimension metric spec w :
  result (ensure_ready fuel pc index_name dimension metric spec w) = Ok tt ->
  result (create_if_absent pc index_name dimension metric spec w) = Ok tt /\
  final (ensure_ready fuel pc index_name dimension metric spec w) =
  final (wait_until_ready fuel pc index_name
           (final (create_if_absent pc index_name dimension metric spec w))).
Proof.
  rewrite ensure_ready_result. unfold ensure_ready. run_step.
  destruct (result (create_if_absent _ _ _ _ _ _)) as [[]| |]; [|done..].
  run_step. intros ->. by run_step.
Qed.

(** What [ensure_ready] does: the guard, then the polls, then the line that
    says the index is ready. *)
Lemma ensure_ready_trace fuel pc index_name dimension metric spec w :
  trace (ensure_ready fuel pc index_name dimension metric spec w) =
  trace (create_if_absent pc index_name dimension metric spec w) ++
  match result (create_if_absent pc index_name dimension metric spec w) with
  | Ok _ =>
      let o := wait_until_ready fuel pc index_name
                 (final (create_if_absent pc index_name dimension metric spec w)) in
      trace o ++
      match result o with
      | Ok _ => [Stdout (MsgReady index_name)]
      | _ => []
      end
  | _ => []
  end.
Proof.
  unfold ensure_ready. rewrite bind_trace. f_equal.
  destruct (result (create_if_absent _ _ _ _ _ _)); [|done..].
  cbv beta zeta. rewrite bind_trace. f_equal.
Qed.

Lemma create_if_absent_creates pc index_name dimension metric spec w :
  count is_create (trace (create_if_absent pc index_name dimension metric spec w)) =
  match (has_index pc index_name w).1 with
  | inr false => 1%nat
  | _ => 0%nat
  end.
Proof.
  rewrite create_if_absent_run.
  by destruct (has_index pc index_name w).1 as [e|[|]].
Qed.

Lemma wait_until_ready_no_create fuel pc index_name w :
  count is_create (trace (wait_until_ready fuel pc index_name w)) = 0%nat /\
  count is_mutation (trace (wait_until_ready fuel pc index_name w)) = 0%nat.
Proof.
  pose proof (wait_until_ready_polls fuel pc index_name w) as Hpolls.
  split; apply count_zero_Forall; (eapply Forall_impl; [exact Hpolls|]);
    intros ev Hev; by destruct (poll_step_no_mutation _ _ Hev).
Qed.

Lemma ensure_ready_creates fuel pc index_name dimension metric spec w :
  count is_create (trace (ensure_ready fuel pc index_name dimension metric spec w)) =
  match (has_index pc index_name w).1 with
  | inr false => 1%nat
  | _ => 0%nat
  end.
Proof.
  rewrite ensure_ready_trace, count_app, create_if_absent_creates.
  destruct (result (create_if_absent _ _ _ _ _ _)); cbv zeta.
  - rewrite count_app. destruct (wait_until_ready_no_create fuel pc index_name
      (final (create_if_absent pc index_name dimension metric spec w))) as [-> _].
    destruct (result (wait_until_ready _ _ _ _)); unfold count; simpl; lia.
  - unfold count; simpl; lia.
  - unfold count; simpl; lia.
Qed.

End WaitFacts.

(** ** The rest of the script never creates an index *)

Section MainFacts.
Context `{Sdk}.

Lemma print_only_no_create (tr : list Event) :
  Forall (fun ev => is_print ev = true) tr -> Forall (fun ev => is_create ev = false) tr.
Proof. intros Htr. eapply Forall_impl; [exact Htr|]. by intros []. Qed.

Lemma embed_and_upsert_no_create model pc index_name ns sentences w :
  Forall (fun ev => is_create ev = false)
         (trace (embed_and_upsert model pc index_name ns sentences w)).
Proof.
  unfold embed_and_upsert. apply Forall_trace_bind.
  - apply print_only_no_create. by destruct (embed_run model sentences w) as (_ & Htr & _).
  - intros vector_data w1. apply Forall_trace_bind; [by repeat constructor|].
    intros index w2. apply Forall_trace_bind; [by repeat constructor|].
    intros upsert_result w3. apply Forall_trace_bind; [by repeat constructor|].
    intros _ w4. constructor.
Qed.

Lemma search_no_create model index ns search_text top_k include_values include_metadata w :
  Forall (fun ev => is_create ev = false)
         (trace (search model index ns search_text top_k include_values include_metadata w)).
Proof.
  unfold search. apply Forall_trace_bind; [constructor|].
  intros search_embedding w1. apply Forall_trace_bind; [by repeat constructor|].
  intros query_result w2. apply Forall_trace_bind; [by repeat constructor|].
  intros _ w3. constructor.
Qed.

Lemma report_matches_no_create i ms w :
  Forall (fun ev => is_create ev = false) (trace (report_matches i ms w)).
Proof.
  revert i w. induction ms as [|m rest IH]; intros i w; [constructor|].
  cbn [report_matches]. apply Forall_trace_bind; [by repeat constructor|].
  intros _ w1. apply Forall_trace_bind.
  - destruct (match_metadata m) as [md|]; [|by repeat constructor].
    apply Forall_trace_bind; [by repeat constructor|].
    intros _ w2. destruct (md !! "sentence"); by repeat constructor.
  - intros _ w2. apply IH.
Qed.

Lemma report_no_create query_result w :
  Forall (fun ev => is_create ev = false) (trace (report query_result w)).
Proof.
  unfold report. apply Forall_trace_bind; [by repeat constructor|].
  intros _ w1. apply Forall_trace_bind; [apply report_matches_no_create|].
  intros _ w2. by repeat constructor.
Qed.

Lemma main_creates_at_most_once fuel w :
  (count is_create (trace (main fuel w)) <= 1)%nat.
Proof.
  unfold main.
  apply (count_bind_le _ _ _ 0 1); [run_step; by unfold count|]. intros model w1.
  apply (count_bind_le _ _ _ 0 1); [run_step; by unfold count|]. intros pc w2.
  apply (count_bind_le _ _ _ 0 1); [run_step; by unfold count|]. intros indexes w3.
  apply (count_bind_le _ _ _ 0 1); [run_step; by unfold count|]. intros _ w4.
  apply (count_bind_le _ _ _ 1 0).
  { rewrite ensure_ready_creates. destruct (has_index _ _ _).1 as [e|[|]]; lia. }
  intros _ w5. apply Nat.eq_le_incl, count_zero_Forall.
  apply Forall_trace_bind; [by repeat constructor|]. intros indexes' w6.
  apply Forall_trace_bind; [by repeat constructor|]. intros _ w7.
  apply Forall_trace_bind; [apply embed_and_upsert_no_create|]. intros index w8.
  apply Forall_trace_bind; [by repeat constructor|]. intros stats w9.
  apply Forall_trace_bind; [by repeat constructor|]. intros _ w10.
  apply Forall_trace_bind; [apply search_no_create|]. intros query_result w11.
  apply Forall_trace_bind; [apply report_no_create|]. intros _ w12.
  by repeat constructor.
Qed.

(** C1, amended: the wait of lines 43-47 has no time limit and raises no
    timeout.  For every resource and every provider behaviour in which the
    resource never reports ready ([never_ready] holds after the guard and
    keeps holding through every status read and every one-second sleep),
    [ensure_ready] never returns: however many times the loop condition is
    evaluated, the run has not ended, it has read the status that many times
    and slept that many seconds. *)
Theorem wait_has_no_time_limit (never_ready : World -> Prop)
    pc index_name dimension metric spec :
  (forall w, never_ready w ->
     exists description,
       (describe_index pc index_name w).1 = inr description /\
       ready (status description) = false /\
       never_ready (sleep 1 (describe_index pc index_name w).2)) ->
  forall fuel w,
    result (create_if_absent pc index_name dimension metric spec w) = Ok tt ->
    never_ready (final (create_if_absent pc index_name dimension metric spec w)) ->
    let o := ensure_ready fuel pc index_name dimension metric spec w in
    result o = OutOfFuel /\
    count is_describe (trace o) = fuel /\
    count is_sleep (trace o) = fuel.
Proof.
  intros Hnever fuel w Hcreate Hw o. subst o.
  destruct (wait_until_ready_never never_ready pc index_name Hnever fuel _ Hw)
    as (Hres & Hdescribes & Hsleeps).
  rewrite ensure_ready_result, ensure_ready_trace, Hcreate. cbv zeta.
  rewrite Hres, app_nil_r, !count_app, Hdescribes, Hsleeps.
  split; [done|]. rewrite create_if_absent_run.
  destruct (has_index pc index_name w).1 as [e|[|]]; by unfold count.
Qed.

(** C3: [ensure_ready] called again with the same arguments, after a call
    that returned, returns too and asks for no creation: it asks whether the
    index exists, reads its status once and reports it ready.  Creation is
    requested only when [pc.has_index] answers that the index is absent.
    [settled] is what the provider guarantees of an index that has reported
    ready: it is still there and still ready at the next calls. *)
Theorem ensure_ready_idempotent (settled : World -> Prop)
    pc index_name dimension metric spec :
  (forall w description,
     (describe_index pc index_name w).1 = inr description ->
     ready (status description) = true ->
     settled (describe_index pc index_name w).2) ->
  (forall w, settled w ->
     (has_index pc index_name w).1 = inr true /\ settled (has_index pc index_name w).2) ->
  (forall w, settled w ->
     exists description,
       (describe_index pc index_name w).1 = inr description /\
       ready (status description) = true) ->
  forall fuel w,
    let first := ensure_ready fuel pc index_name dimension metric spec w in
    result first = Ok tt ->
    count is_create (trace first) =
      match (has_index pc index_name w).1 with inr false => 1%nat | _ => 0%nat end /\
    forall fuel',
      let second := ensure_ready (S fuel') pc index_name dimension metric spec (final first) in
      result second = Ok tt /\
      count is_create (trace second) = 0%nat /\
      trace second =
        [CallHasIndex index_name; CallDescribeIndex index_name; Stdout (MsgReady index_name)].
Proof.
  intros Henter Hhas Hdescribe fuel w first Hfirst. subst first.
  split; [apply ensure_ready_creates|]. intros fuel' second. subst second.
  destruct (ensure_ready_final _ _ _ _ _ _ _ Hfirst) as [Hcreate ->].
  rewrite ensure_ready_result, Hcreate in Hfirst.
  pose proof (wait_until_ready_ok settled pc index_name Henter _ _ Hfirst) as Hsettled.
  set (w1 := final (wait_until_ready _ _ _ _)) in *.
  destruct (Hhas w1 Hsettled) as [Hpresent Hsettled'].
  destruct (Hdescribe _ Hsettled') as (description & Hd & Hready).
  assert (Hguard : create_if_absent pc index_name dimension metric spec w1 =
    {| result := Ok tt; final := (has_index pc index_name w1).2;
       trace := [CallHasIndex index_name] |}).
  { by rewrite create_if_absent_run, Hpresent. }
  assert (Hwait : wait_until_ready (S fuel') pc index_name (has_index pc index_name w1).2 =
    {| result := Ok tt; final := (describe_index pc index_name (has_index pc index_name w1).2).2;
       trace := [CallDescribeIndex index_name] |}).
  { rewrite wait_until_ready_turn. cbv zeta. by rewrite Hd, Hready. }
  rewrite ensure_ready_result, ensure_ready_creates, ensure_ready_trace, Hguard, Hpresent.
  cbn [result final trace]. cbv zeta. rewrite Hwait. done.
Qed.

(** [teardown] is the provider's delete, recorded. *)
Lemma teardown_run pc index_name w :
  teardown pc index_name w =
  {| result := answer (delete_index pc index_name w).1;
     final := (delete_index pc index_name w).2;
     trace := [CallDeleteIndex index_name] |}.
Proof. done. Qed.

Lemma teardown_raises pc index_name w e :
  result (teardown pc index_name w) = Raise e <-> (delete_index pc index_name w).1 = inl e.
Proof.
  rewrite teardown_run. cbn [result].
  destruct (delete_index pc index_name w).1; simpl; split; congruence.
Qed.

(** C9: in every run of [main] at most one creation request is issued, and
    it is part of the guard of lines 27-41.  What [ensure_ready] does after
    the guard and before it reports the index ready is the wait loop, and
    every step of the loop is a status read of that index, the line that says
    it is waiting, or a one-second sleep: no creation, no write, no
    deletion, so the loop itself asks the provider to change nothing. *)
Theorem wait_only_reads_and_one_creation fuel w pc index_name dimension metric spec w' :
  (count is_create (trace (main fuel w)) <= 1)%nat /\
  (count is_create (trace (ensure_ready fuel pc index_name dimension metric spec w')) <= 1)%nat /\
  exists polls said,
    trace (ensure_ready fuel pc index_name dimension metric spec w') =
      trace (create_if_absent pc index_name dimension metric spec w') ++ polls ++ said /\
    Forall (is_poll_step index_name) polls /\
    count is_mutation polls = 0%nat /\
    (said = [] \/ said = [Stdout (MsgReady index_name)]).
Proof.
  split; [apply main_creates_at_most_once|]. split.
  { rewrite ensure_ready_creates. destruct (has_index _ _ _).1 as [e|[|]]; lia. }
  rewrite ensure_ready_trace.
  destruct (result (create_if_absent _ _ _ _ _ _)); cbv zeta.
  - eexists _, _. split; [reflexivity|].
    split; [apply wait_until_ready_polls|].
    split; [apply wait_until_ready_no_create|].
    destruct (result (wait_until_ready _ _ _ _)); auto.
  - exists [], []. split; [done|]. split; [constructor|]. split; [done|]. by left.
  - exists [], []. split; [done|]. split; [constructor|]. split; [done|]. by left.
Qed.

End MainFacts.

(** ** The report (lines 106-115) *)

Section ReportFacts.
Context `{Sdk}.

Lemma report_matches_run i ms w :
  report_matches i ms w =
  {| result := Ok tt; final := w;
     trace := concat (imap (fun j m => match_lines (i + j) m) ms) |}.
Proof.
  revert i w. induction ms as [|m rest IH]; intros i w; [done|].
  cbn [report_matches]. rewrite imap_cons. cbn [concat].
  assert (Hmeta : forall w',
    (match match_metadata m with
     | Some md =>
         print (MsgMetadata md) >>
         match md !! "sentence" with
         | Some text => print (MsgText text)
         | None => ret tt
         end
     | None => print MsgNoMetadata
     end) w' =
    {| result := Ok tt; final := w';
       trace := match match_metadata m with
                | Some md =>
                    Stdout (MsgMetadata md) ::
                    match md !! "sentence" with
                    | Some text => [Stdout (MsgText text)]
                    | None => []
                    end
                | None => [Stdout MsgNoMetadata]
                end |}).
  { intros w'. destruct (match_metadata m) as [md|]; [|done].
    apply outcome_eq; run_step; by destruct (md !! "sentence"). }
  replace (imap ((fun j m0 => match_lines (i + j) m0) ∘ S) rest)
    with (imap (fun j m0 => match_lines (S i + j) m0) rest)
    by (apply imap_ext; intros j m' _; simpl; f_equal; lia).
  apply outcome_eq; run_step; rewrite Hmeta; run_step; rewrite ?Hmeta, IH; cbn [result final trace];
    try done.
  unfold match_lines at 1. by replace (i + 0)%nat with i by lia.
Qed.

Lemma report_run query_result w :
  report query_result w =
  {| result := Ok tt; final := w;
     trace := Stdout MsgMatchesHeader ::
              concat (imap match_lines (matches query_result)) ++ [Stdout MsgBlank] |}.
Proof.
  unfold report. apply outcome_eq; run_step; rewrite report_matches_run; by run_step.
Qed.

Lemma printed_ranks_app (tr1 tr2 : list Event) :
  printed_ranks (tr1 ++ tr2) = printed_ranks tr1 ++ printed_ranks tr2.
Proof. apply omap_app. Qed.

Lemma printed_texts_app (tr1 tr2 : list Event) :
  printed_texts (tr1 ++ tr2) = printed_texts tr1 ++ printed_texts tr2.
Proof. apply omap_app. Qed.

Lemma printed_ranks_match_lines i m :
  printed_ranks (match_lines i m) = [((i + 1)%nat, match_id m, match_score m)].
Proof.
  unfold match_lines, printed_ranks. cbn [omap].
  destruct (match_metadata m) as [md|]; [|done].
  by destruct (md !! "sentence").
Qed.

(** The numbered lines of the report are the matches, in order, numbered
    from 1. *)
Lemma report_ranks query_result w :
  printed_ranks (trace (report query_result w)) =
  imap (fun j m => (S j, match_id m, match_score m)) (matches query_result).
Proof.
  rewrite report_run. cbn [trace]. change (?x :: ?l ++ ?r) with ([x] ++ l ++ r).
  rewrite !printed_ranks_app. cbn [printed_ranks omap]. rewrite app_nil_r. simpl.
  generalize (matches query_result). intros ms.
  change match_lines with (fun j => match_lines (0 + j)).
  change (fun j m => (S j, match_id m, match_score m))
    with (fun j (m : Match Float) => (S (0 + j), match_id m, match_score m)).
  generalize 0%nat. induction ms as [|m rest IH]; intros i; [done|].
  rewrite !imap_cons. cbn [concat]. rewrite printed_ranks_app, printed_ranks_match_lines.
  simpl. f_equal; [repeat f_equal; lia|].
  specialize (IH (S i)). etrans; [|etrans; [exact IH|]].
  - f_equal. f_equal. apply imap_ext. intros j m' _. simpl. f_equal. lia.
  - apply imap_ext. intros j m' _. simpl. repeat f_equal. lia.
Qed.

Lemma match_lines_text i m md text :
  match_metadata m = Some md ->
  md !! "sentence" = Some text ->
  printed_texts (match_lines i m) = [text].
Proof. intros Hmd Htext. unfold match_lines. by rewrite Hmd, Htext. Qed.

Lemma concat_match_lines_text i ms m md text :
  m ∈ ms ->
  match_metadata m = Some md ->
  md !! "sentence" = Some text ->
  text ∈ printed_texts (concat (imap (fun j m' => match_lines (i + j) m') ms)).
Proof.
  intros Hm Hmd Htext. revert i.
  induction ms as [|m' rest IH]; intros i; [by apply elem_of_nil in Hm|].
  rewrite imap_cons. cbn [concat]. rewrite printed_texts_app. apply elem_of_app.
  apply elem_of_cons in Hm as [<-|Hrest].
  - left. rewrite (match_lines_text _ _ _ _ Hmd Htext). by left.
  - right. specialize (IH Hrest (S i)).
    replace (imap ((fun j m0 => match_lines (i + j) m0) ∘ S) rest)
      with (imap (fun j m0 => match_lines (S i + j) m0) rest); [done|].
    apply imap_ext. intros j m0 _. simpl. f_equal. lia.
Qed.

(** A match that carries a ['sentence'] has its text printed. *)
Lemma report_prints_text query_result w m md text :
  m ∈ matches query_result ->
  match_metadata m = Some md ->
  md !! "sentence" = Some text ->
  text ∈ printed_texts (trace (report query_result w)).
Proof.
  intros Hm Hmd Htext. rewrite report_run. cbn [trace].
  change (?x :: ?l ++ ?r) with ([x] ++ l ++ r). rewrite !printed_texts_app.
  apply elem_of_app. right. apply elem_of_app. left.
  change match_lines with (fun j => match_lines (0 + j)).
  by eapply concat_match_lines_text.
Qed.

End ReportFacts.

(** ** The script against the stub provider *)

(** Replace the calls of the interface by the stub's functions. *)
Ltac stub_calls :=
  cbn [Float Exn World Model Client IndexHandle IndexList UpsertResponse IndexStats
       getenv SentenceTransformer encode Pinecone list_indexes has_index create_index
       describe_index Index delete_index upsert describe_index_stats query sleep
       stub_sdk] in *.

Section StubFacts.
Context {F : Type} (cfg : StubConfig F).

Local Abbreviation sdk := (stub_sdk cfg).

Hypothesis leb_total : forall a b, cfg_leb cfg a b = true \/ cfg_leb cfg b a = true.
Hypothesis leb_trans :
  forall a b c, cfg_leb cfg a b = true -> cfg_leb cfg b c = true -> cfg_leb cfg a c = true.

Lemma ranks_before_total metric : Total (ranks_before cfg metric).
Proof. intros m1 m2. unfold ranks_before, best_first. destruct metric; auto. Qed.

Lemma ranks_before_trans metric : Transitive (ranks_before cfg metric).
Proof. intros m1 m2 m3. unfold ranks_before, best_first. destruct metric; eauto. Qed.

(** The matches the stub gives for a query. *)
Lemma stub_search_run (model index ns search_text : string) top_k
    include_values include_metadata (w : gmap string (StubIndex F)) ix vector :
  w !! index = Some ix ->
  cfg_encode cfg search_text = inr vector ->
  0 < top_k ->
  let query_result :=
    {| matches :=
         take (Z.to_nat top_k)
              (merge_sort (ranks_before cfg (ix_metric ix))
                 (scored cfg (ix_metric ix) vector include_values include_metadata
                    <$> stored ix ns));
       namespace := ns |} in
  @search sdk model index ns search_text top_k include_values include_metadata w =
  {| result := Ok query_result; final := w;
     trace := [@CallQuery sdk index vector top_k ns include_values include_metadata;
               @Stdout sdk (@MsgQueryResult sdk query_result)] |}.
Proof.
  intros Hix Hencode Hk query_result.
  assert (Hquery : stub_query cfg index vector top_k ns include_values include_metadata w =
                   (inr query_result, w)).
  { unfold stub_query. rewrite Hix. destruct (Z.leb_spec top_k 0); [lia|done]. }
  unfold search. apply outcome_eq; run_step; cbn [encode query sdk stub_sdk];
    rewrite Hencode; run_step; rewrite Hquery; by run_step.
Qed.

(** C7: against the stub provider, whose query is the top-K search of
    section 4.2, every query the script makes ([search], lines 92-96) returns
    its matches best first under the metric the index was created with: by
    increasing score when the metric is euclidean (a distance), by
    decreasing score when it is cosine or dotproduct (a similarity); the
    report (lines 107-108) numbers them 1, 2, ... in that order.  The order
    on scores is total and transitive. *)
Theorem query_result_is_best_first (model index ns search_text : string) top_k
    include_values include_metadata (w : gmap string (StubIndex F)) ix vector :
  w !! index = Some ix ->
  cfg_encode cfg search_text = inr vector ->
  0 < top_k ->
  exists query_result,
    result (@search sdk model index ns search_text top_k include_values include_metadata w)
      = Ok query_result /\
    StronglySorted (ranks_before cfg (ix_metric ix)) (matches query_result) /\
    (forall i j mi mj,
       (i < j)%nat -> matches query_result !! i = Some mi ->
       matches query_result !! j = Some mj ->
       match ix_metric ix with
       | euclidean => cfg_leb cfg (match_score mi) (match_score mj) = true
       | cosine | dotproduct => cfg_leb cfg (match_score mj) (match_score mi) = true
       end) /\
    @printed_ranks sdk (trace (@report sdk query_result w)) =
      imap (fun j m => (S j, match_id m, match_score m)) (matches query_result).
Proof.
  intros Hix Hencode Hk.
  rewrite (stub_search_run model index ns search_text top_k include_values include_metadata
             w ix vector Hix Hencode Hk).
  eexists. split; [reflexivity|]. cbn [matches].
  assert (Hsorted : StronglySorted (ranks_before cfg (ix_metric ix))
    (take (Z.to_nat top_k)
       (merge_sort (ranks_before cfg (ix_metric ix))
          (scored cfg (ix_metric ix) vector include_values include_metadata <$> stored ix ns)))).
  { eapply StronglySorted_app_1_l. rewrite take_drop.
    apply StronglySorted_merge_sort;
      [apply ranks_before_trans|apply ranks_before_total]. }
  split; [done|]. split; [|apply (@report_ranks sdk)].
  intros i j mi mj Hij Hi Hj.
  assert (Hrank : ranks_before cfg (ix_metric ix) mi mj).
  { revert i j Hij Hi Hj. induction Hsorted as [|m ms Hms IH Hall]; intros i j Hij Hi Hj;
      [done|].
    destruct i as [|i], j as [|j]; try lia; simpl in *.
    - injection Hi as ->. rewrite Forall_forall in Hall. apply Hall.
      by eapply list_elem_of_lookup_2.
    - eapply (IH i j); [lia|done..]. }
  unfold ranks_before, best_first in Hrank. by destruct (ix_metric ix).
Qed.

(** C8: against the stub provider, for every namespace holding n records
    and every [top_k] above n, the query returns a result (no failure) with
    exactly the n records of the namespace, each once, and the report has n
    numbered lines. *)
Theorem query_top_k_above_count (model index ns search_text : string) top_k
    include_values include_metadata (w : gmap string (StubIndex F)) ix vector :
  w !! index = Some ix ->
  cfg_encode cfg search_text = inr vector ->
  Z.of_nat (size (default ∅ (ix_records ix !! ns))) < top_k ->
  exists query_result,
    result (@search sdk model index ns search_text top_k include_values include_metadata w)
      = Ok query_result /\
    length (matches query_result) = size (default ∅ (ix_records ix !! ns)) /\
    matches query_result ≡ₚ
      (scored cfg (ix_metric ix) vector include_values include_metadata <$> stored ix ns) /\
    length (@printed_ranks sdk (trace (@report sdk query_result w))) =
      size (default ∅ (ix_records ix !! ns)).
Proof.
  intros Hix Hencode Hk.
  assert (0 < top_k) as Hpos by lia.
  rewrite (stub_search_run model index ns search_text top_k include_values include_metadata
             w ix vector Hix Hencode Hpos).
  eexists. split; [reflexivity|]. cbn [matches].
  assert (Hlen : length (merge_sort (ranks_before cfg (ix_metric ix))
      (scored cfg (ix_metric ix) vector include_values include_metadata <$> stored ix ns))
      = size (default ∅ (ix_records ix !! ns))).
  { rewrite merge_sort_Permutation. unfold stored.
    by rewrite !length_fmap, length_map_to_list. }
  rewrite (@report_ranks sdk). cbn [matches]. rewrite length_imap.
  rewrite take_ge by lia. split; [done|]. split; [apply merge_sort_Permutation|done].
Qed.

(** Upserting a batch of distinct ids stores each of its records under its
    id, and keeps every record stored under its own id. *)
Lemma upsert_fold_other (vectors : list (VectorInfo F))
    (records : gmap string (VectorInfo F)) id :
  id ∉ vec_id <$> vectors ->
  foldl (fun m v => <[vec_id v := v]> m) records vectors !! id = records !! id.
Proof.
  revert records. induction vectors as [|v rest IH]; intros records Hid; [done|].
  rewrite fmap_cons, not_elem_of_cons in Hid. destruct Hid as [Hne Hrest].
  simpl. rewrite IH by done. by rewrite lookup_insert_ne.
Qed.

Lemma upsert_fold_stored (vectors : list (VectorInfo F))
    (records : gmap string (VectorInfo F)) v :
  NoDup (vec_id <$> vectors) ->
  v ∈ vectors ->
  foldl (fun m v => <[vec_id v := v]> m) records vectors !! vec_id v = Some v.
Proof.
  revert records. induction vectors as [|x rest IH]; intros records Hnodup Hv;
    [by apply elem_of_nil in Hv|].
  rewrite fmap_cons, NoDup_cons in Hnodup. destruct Hnodup as [Hx Hrest].
  simpl. apply elem_of_cons in Hv as [->|Hv].
  - rewrite upsert_fold_other by done. apply lookup_insert_eq.
  - by apply IH.
Qed.

Lemma upsert_fold_keyed (vectors : list (VectorInfo F))
    (records : gmap string (VectorInfo F)) :
  (forall id v, records !! id = Some v -> vec_id v = id) ->
  forall id v,
    foldl (fun m v => <[vec_id v := v]> m) records vectors !! id = Some v -> vec_id v = id.
Proof.
  revert records. induction vectors as [|x rest IH]; intros records Hkeyed; [done|].
  simpl. apply IH. intros id v. destruct (decide (vec_id x = id)) as [<-|Hne].
  - rewrite lookup_insert_eq. by intros [= <-].
  - rewrite lookup_insert_ne by done. apply Hkeyed.
Qed.

Lemma stub_upsert_ok (index ns : string) vectors (w : gmap string (StubIndex F)) ix :
  w !! index = Some ix ->
  Forall (fun v => Z.of_nat (length (vec_values v)) = ix_dimension ix) vectors ->
  stub_upsert index vectors ns w =
  (inr (length vectors),
   <[index := {| ix_dimension := ix_dimension ix; ix_metric := ix_metric ix;
                 ix_spec := ix_spec ix; ix_remaining := ix_remaining ix;
                 ix_records :=
                   <[ns := foldl (fun m v => <[vec_id v := v]> m)
                                 (default ∅ (ix_records ix !! ns)) vectors]>
                     (ix_records ix) |}]> w).
Proof.
  intros Hix Hdim. unfold stub_upsert. rewrite Hix.
  replace (forallb _ vectors) with true; [done|].
  symmetry. apply forallb_forall. intros v Hv%list_elem_of_In.
  rewrite Forall_forall in Hdim. apply Z.eqb_eq. by apply Hdim.
Qed.

(** Ingest, then query with the metadata asked for: a match whose id is the
    id of an ingested record carries that record's text, and the report
    prints it. *)
Lemma stub_round_trip (model pc index_name ns : string) sentences
    (w : gmap string (StubIndex F)) ix (search_text : string) vector top_k include_values :
  stub_wf w ->
  w !! index_name = Some ix ->
  NoDup (sent_id <$> sentences) ->
  (forall sentence, sentence ∈ sentences ->
     exists embedding,
       cfg_encode cfg (sent_text sentence) = inr embedding /\
       Z.of_nat (length embedding) = ix_dimension ix) ->
  cfg_encode cfg search_text = inr vector ->
  0 < top_k ->
  let ingest := @embed_and_upsert sdk model pc index_name ns sentences w in
  result ingest = Ok index_name /\
  exists query_result,
    result (@search sdk model index_name ns search_text top_k include_values true
              (final ingest)) = Ok query_result /\
    forall m sentence,
      m ∈ matches query_result -> sentence ∈ sentences -> match_id m = sent_id sentence ->
      match_metadata m = Some {[ "sentence" := sent_text sentence ]} /\
      sent_text sentence ∈ @printed_texts sdk (trace (@report sdk query_result (final ingest))).
Proof.
  intros Hwf Hix Hnodup Hencodes Hsearch Hk ingest. subst ingest.
  assert (Hnone : @first_failure sdk model sentences = None).
  { apply (@first_failure_none sdk). intros sentence Hin.
    destruct (Hencodes sentence Hin) as (embedding & He & _). by exists embedding. }
  destruct (@embed_result_of_no_failure sdk model sentences w Hnone)
    as (vector_data & Hembed & Hall).
  assert (Hdim : Forall (fun v => Z.of_nat (length (vec_values v)) = ix_dimension ix)
                        vector_data).
  { apply Forall_forall. intros v Hv.
    apply list_elem_of_lookup in Hv as [i Hi].
    destruct (Forall2_lookup_r _ _ _ _ _ Hall Hi) as (sentence & Hs & Hv & _).
    destruct (Hencodes sentence) as (embedding & He & Hlen);
      [by eapply list_elem_of_lookup_2|].
    stub_calls. congruence. }
  assert (Hhandle : @Index sdk pc index_name w = (inr index_name, w)).
  { stub_calls. unfold stub_Index. by rewrite Hix. }
  pose proof (stub_upsert_ok index_name ns vector_data w ix Hix Hdim) as Hupsert.
  destruct (@embed_and_upsert_ok sdk model pc index_name ns sentences w vector_data
              index_name (length vector_data) Hembed)
    as [Hresult Hfinal].
  { by rewrite Hhandle. }
  { rewrite Hhandle. cbn [fst snd]. stub_calls. by rewrite Hupsert. }
  split; [done|]. rewrite Hfinal, Hhandle. cbn [fst snd]. stub_calls.
  rewrite Hupsert. cbn [snd].
  set (records := foldl (fun m v => <[vec_id v := v]> m)
                        (default ∅ (ix_records ix !! ns)) vector_data).
  set (ix' := {| ix_dimension := ix_dimension ix; ix_metric := ix_metric ix;
                 ix_spec := ix_spec ix; ix_remaining := ix_remaining ix;
                 ix_records := <[ns := records]> (ix_records ix) |}).
  assert (Hix' : (<[index_name := ix']> w) !! index_name = Some ix')
    by apply lookup_insert_eq.
  rewrite (stub_search_run model index_name ns search_text top_k include_values true
             _ ix' vector Hix' Hsearch Hk).
  eexists. split; [reflexivity|]. cbn [matches].
  intros m sentence Hm Hsentence Hid. pose proof Hm as Hin.
  apply subseteq_take in Hm. rewrite merge_sort_Permutation in Hm.
  apply list_elem_of_fmap in Hm as (v & -> & Hv).
  unfold stored in Hv. cbn [ix_records ix'] in Hv. rewrite lookup_insert_eq in Hv.
  cbn [default] in Hv.
  apply list_elem_of_fmap in Hv as ([id v'] & -> & Hv%elem_of_map_to_list).
  cbn [snd] in *.
  assert (Hkeyed : vec_id v' = id).
  { eapply (upsert_fold_keyed vector_data); [|exact Hv].
    intros id0 v0. destruct (ix_records ix !! ns) as [records0|] eqn:Hns; cbn [default].
    - by apply (Hwf index_name ix ns records0).
    - by rewrite lookup_empty. }
  apply list_elem_of_lookup in Hsentence as [i Hi].
  destruct (Forall2_lookup_l _ _ _ _ _ Hall Hi) as (v_s & Hvs & Hencode & Hvid & Hmeta).
  assert (Hids : vec_id <$> vector_data = sent_id <$> sentences).
  { apply list_eq. intros j. rewrite !list_lookup_fmap.
    by destruct (@Forall2_embeds_ids sdk model sentences vector_data Hall) as [_ ->]. }
  assert (Hstored : records !! vec_id v_s = Some v_s).
  { apply upsert_fold_stored; [by rewrite Hids|by eapply list_elem_of_lookup_2]. }
  cbn [match_id scored] in Hid.
  assert (Some v' = Some v_s) as [= ->].
  { transitivity (records !! id); [symmetry; exact Hv|].
    rewrite <- Hkeyed, Hid, <- Hvid. exact Hstored. }
  assert (Hmatch : match_metadata (scored cfg (ix_metric ix') vector include_values true v_s)
                   = Some {[ "sentence" := sent_text sentence ]}).
  { exact (f_equal Some Hmeta). }
  split; [done|].
  eapply (@report_prints_text sdk); [|exact Hmatch|apply lookup_singleton_eq].
  exact Hin.
Qed.

(** An index of the stub that has no time left to wait is there and ready,
    and stays so through the calls of [ensure_ready]. *)
Lemma stub_settled_enter (pc index_name : string) (w : gmap string (StubIndex F)) description :
  (@describe_index sdk pc index_name w).1 = inr description ->
  ready (status description) = true ->
  exists ix, (@describe_index sdk pc index_name w).2 !! index_name = Some ix /\
             ix_remaining ix = Some 0%nat.
Proof.
  stub_calls. unfold stub_describe_index.
  destruct (w !! index_name) as [ix|] eqn:Hix; [|done]. cbn [fst snd].
  intros [= <-]. cbn [status ready stub_describe]. intros Hready%bool_decide_eq_true.
  by exists ix.
Qed.

Lemma stub_settled_has (pc index_name : string) (w : gmap string (StubIndex F)) :
  (exists ix, w !! index_name = Some ix /\ ix_remaining ix = Some 0%nat) ->
  (@has_index sdk pc index_name w).1 = inr true /\
  exists ix, (@has_index sdk pc index_name w).2 !! index_name = Some ix /\
             ix_remaining ix = Some 0%nat.
Proof.
  intros (ix & Hix & Hready). stub_calls. unfold stub_has_index. cbn [fst snd].
  split; [|by exists ix]. f_equal. apply bool_decide_eq_true. by exists ix.
Qed.

Lemma stub_settled_describe (pc index_name : string) (w : gmap string (StubIndex F)) :
  (exists ix, w !! index_name = Some ix /\ ix_remaining ix = Some 0%nat) ->
  exists description,
    (@describe_index sdk pc index_name w).1 = inr description /\
    ready (status description) = true.
Proof.
  intros (ix & Hix & Hready). stub_calls. unfold stub_describe_index. rewrite Hix.
  eexists. split; [reflexivity|]. cbn [status ready stub_describe].
  by apply bool_decide_eq_true.
Qed.

(** An index of the stub that never becomes ready is never reported
    ready. *)
Lemma stub_never_ready (pc index_name : string) (w : gmap string (StubIndex F)) :
  (exists ix, w !! index_name = Some ix /\ ix_remaining ix = None) ->
  exists description,
    (@describe_index sdk pc index_name w).1 = inr description /\
    ready (status description) = false /\
    exists ix, @sleep sdk 1 (@describe_index sdk pc index_name w).2 !! index_name = Some ix /\
               ix_remaining ix = None.
Proof.
  intros (ix & Hix & Hnever). stub_calls. unfold stub_describe_index. rewrite Hix.
  cbn [fst snd]. eexists. split; [reflexivity|]. split.
  - cbn [status ready stub_describe]. rewrite Hnever. by apply bool_decide_eq_false.
  - unfold stub_sleep. rewrite lookup_fmap, Hix. cbn [fmap option_fmap option_map].
    eexists. split; [reflexivity|]. cbn [ix_remaining]. by rewrite Hnever.
Qed.

End StubFacts.

(** C10: for every SDK, whatever lines 65-82 submit to [upsert] carries, for
    each record, its id and the mapping from "sentence" to the record's
    text, nothing else and unchanged.  Hence, against the stub provider, a
    query with the metadata asked for gives back, in every match whose id is
    the id of an ingested record, that record's text, and the report prints
    it. *)
Theorem metadata_round_trip :
  (forall (any : Sdk) model pc index_name ns sentences w index vector_data ns',
     CallUpsert index vector_data ns' ∈
       trace (embed_and_upsert model pc index_name ns sentences w) ->
     Forall2 (fun sentence v =>
                vec_id v = sent_id sentence /\
                vec_metadata v = {[ "sentence" := sent_text sentence ]})
             sentences vector_data) /\
  (forall F (cfg : StubConfig F) (model pc index_name ns : string) sentences
          (w : gmap string (StubIndex F)) ix (search_text : string) vector top_k
          include_values,
     stub_wf w ->
     w !! index_name = Some ix ->
     NoDup (sent_id <$> sentences) ->
     (forall sentence, sentence ∈ sentences ->
        exists embedding,
          cfg_encode cfg (sent_text sentence) = inr embedding /\
          Z.of_nat (length embedding) = ix_dimension ix) ->
     cfg_encode cfg search_text = inr vector ->
     0 < top_k ->
     let ingest := @embed_and_upsert (stub_sdk cfg) model pc index_name ns sentences w in
     result ingest = Ok index_name /\
     exists query_result,
       result (@search (stub_sdk cfg) model index_name ns search_text top_k include_values
                 true (final ingest)) = Ok query_result /\
       forall m sentence,
         m ∈ matches query_result -> sentence ∈ sentences ->
         match_id m = sent_id sentence ->
         match_metadata m = Some {[ "sentence" := sent_text sentence ]} /\
         sent_text sentence ∈
           @printed_texts (stub_sdk cfg)
             (trace (@report (stub_sdk cfg) query_result (final ingest)))).
Proof.
  split.
  - intros any model pc index_name ns sentences w index vector_data ns' Hin.
    apply upsert_payload in Hin as [_ Hall].
    eapply Forall2_impl; [exact Hall|]. by intros sentence v (_ & ? & ?).
  - intros. by eapply stub_round_trip.
Qed.

(** C6, amended: [teardown] (line 130) issues exactly one delete request,
    for the named resource, and ends with the provider's answer to it,
    unchanged: the script asks nothing before it and catches nothing, so
    tearing down a resource that is already absent is an error exactly when
    the provider's delete rejects a name it does not know.  Against the stub
    provider: a resource that is there is deleted; for one that is absent
    the configuration of the provider decides. *)
Theorem teardown_passes_delete_through :
  (forall (any : Sdk) pc index_name w,
     teardown pc index_name w =
     {| result := answer (delete_index pc index_name w).1;
        final := (delete_index pc index_name w).2;
        trace := [CallDeleteIndex index_name] |} /\
     (forall e, result (teardown pc index_name w) = Raise e <->
                (delete_index pc index_name w).1 = inl e)) /\
  (forall F (cfg : StubConfig F) (pc index_name : string) (w : gmap string (StubIndex F)),
     match w !! index_name with
     | Some _ =>
         result (@teardown (stub_sdk cfg) pc index_name w) = Ok tt /\
         final (@teardown (stub_sdk cfg) pc index_name w) !! index_name = None
     | None =>
         result (@teardown (stub_sdk cfg) pc index_name w) =
           (if cfg_delete_absent_ok cfg then Ok tt else Raise (NotFound index_name)) /\
         final (@teardown (stub_sdk cfg) pc index_name w) = w
     end).
Proof.
  split.
  - intros any pc index_name w. split; [apply teardown_run|]. intros e. apply teardown_raises.
  - intros F cfg pc index_name w. rewrite (@teardown_run (stub_sdk cfg)).
    cbn [result final]. stub_calls. unfold stub_delete_index.
    destruct (w !! index_name) as [ix|] eqn:Hix.
    + split; [done|]. apply lookup_delete_eq.
    + by destruct (cfg_delete_absent_ok cfg).
Qed.

(** * The theorems at work, and where the specification goes beyond the script *)

Lemma Z_leb_total (a b : Z) : (a <=? b) = true \/ (b <=? a) = true.
Proof. destruct (Z.leb_spec a b); [by left|right; apply Z.leb_le; lia]. Qed.

Lemma Z_leb_trans (a b c : Z) : (a <=? b) = true -> (b <=? c) = true -> (a <=? c) = true.
Proof. rewrite !Z.leb_le. lia. Qed.

Lemma ready_world_wf : stub_wf ready_world.
Proof.
  intros index ix ns records id v Hix Hns Hv. unfold ready_world in Hix.
  apply lookup_singleton_Some in Hix as [_ <-]. cbn [ix_records] in Hns.
  by rewrite lookup_empty in Hns.
Qed.

Lemma ready_world_is_made_by_the_script :
  final (@ensure_ready (stub_sdk demo_config) 3 "stub-key" "example-index" 768 euclidean
           aws_us_east_1 ∅) = ready_world.
Proof. reflexivity. Qed.

Lemma two_letter_world_is_made_by_upsert :
  final (@embed_and_upsert (stub_sdk letter_config) "model" "stub-key" "letters" "ns"
           [{| sent_id := "v1"; sent_text := "A" |}; {| sent_id := "v2"; sent_text := "B" |}]
           letter_world) = two_letter_world.
Proof. reflexivity. Qed.

(** C1, an instance: an index that never becomes ready, seven turns of the
    loop. *)
Lemma wait_has_no_time_limit_witness :
  let o := @ensure_ready (stub_sdk stuck_config) 7 "stub-key" "example-index" 768 euclidean
             aws_us_east_1 ∅ in
  result o = OutOfFuel /\
  count (@is_describe (stub_sdk stuck_config)) (trace o) = 7%nat /\
  count (@is_sleep (stub_sdk stuck_config)) (trace o) = 7%nat.
Proof.
  apply (@wait_has_no_time_limit (stub_sdk stuck_config)
           (fun w => exists ix, w !! "example-index" = Some ix /\ ix_remaining ix = None)).
  - intros w Hw. by apply (stub_never_ready stuck_config).
  - by vm_compute.
  - eexists. split; [by vm_compute|done].
Defined.

(** C1, as stated, fails: with a provider whose index never becomes ready
    there is no number of polls after which [ensure_ready] has ended, with a
    timeout or in any other way. *)
Lemma ensure_ready_never_times_out :
  ~ exists fuel,
      result (@ensure_ready (stub_sdk stuck_config) fuel "stub-key" "example-index" 768
                euclidean aws_us_east_1 ∅) <> OutOfFuel.
Proof.
  intros [fuel Hended]. apply Hended. rewrite ensure_ready_result.
  replace (result (@create_if_absent (stub_sdk stuck_config) "stub-key" "example-index" 768
                     euclidean aws_us_east_1 ∅)) with (@Ok StubError unit tt)
    by (by vm_compute).
  eapply (@wait_until_ready_never (stub_sdk stuck_config)
            (fun w => exists ix, w !! "example-index" = Some ix /\ ix_remaining ix = None)).
  - intros w Hw. by apply (stub_never_ready stuck_config).
  - eexists. split; [by vm_compute|done].
Qed.

(** C2, an instance: two records of two components each go to an index of
    dimension 2. *)
Lemma upsert_submits_embedder_output_witness :
  let o := @embed_and_upsert (stub_sdk letter_config) "model" "stub-key" "letters" "ns"
             [{| sent_id := "v1"; sent_text := "A" |}; {| sent_id := "v2"; sent_text := "B" |}]
             letter_world in
  exists vector_data,
    Forall2 (@embeds (stub_sdk letter_config) "model")
      [{| sent_id := "v1"; sent_text := "A" |}; {| sent_id := "v2"; sent_text := "B" |}]
      vector_data /\
    @CallUpsert (stub_sdk letter_config) "letters" vector_data "ns" ∈ trace o /\
    count (@is_upsert (stub_sdk letter_config)) (trace o) = 1%nat.
Proof.
  apply (@upsert_submits_embedder_output (stub_sdk letter_config)); by vm_compute.
Defined.

(** C2, as stated, fails: the index of [main] has dimension 768, the
    embedder gives two components, and the ten records are submitted as they
    are; the failure that follows is the provider's answer to the
    submission. *)
Lemma mismatched_vectors_are_submitted :
  let o := @main (stub_sdk short_config) 1 ∅ in
  @created (stub_sdk short_config) (trace o) =
    [("example-index", 768, euclidean, aws_us_east_1)] /\
  @upserted (stub_sdk short_config) (trace o) =
    [("example-index",
      [("vector1", [29; 0]); ("vector2", [61; 0]); ("vector3", [43; 0]);
       ("vector4", [50; 0]); ("vector5", [37; 0]); ("vector6", [49; 0]);
       ("vector7", [36; 0]); ("vector8", [49; 0]); ("vector9", [55; 0]);
       ("vector10", [47; 0])],
      "example-namespace")] /\
  result o = Raise (BadRequest "dimension").
Proof. by vm_compute. Qed.

(** C3, an instance: the script's index, created by the first call and
    ready after two seconds. *)
Lemma ensure_ready_idempotent_witness :
  let first := @ensure_ready (stub_sdk demo_config) 5 "stub-key" "example-index" 768
                 euclidean aws_us_east_1 ∅ in
  count (@is_create (stub_sdk demo_config)) (trace first) = 1%nat /\
  forall fuel',
    let second := @ensure_ready (stub_sdk demo_config) (S fuel') "stub-key" "example-index"
                    768 euclidean aws_us_east_1 (final first) in
    result second = Ok tt /\
    count (@is_create (stub_sdk demo_config)) (trace second) = 0%nat /\
    trace second =
      [@CallHasIndex (stub_sdk demo_config) "example-index";
       @CallDescribeIndex (stub_sdk demo_config) "example-index";
       @Stdout (stub_sdk demo_config) (@MsgReady (stub_sdk demo_config) "example-index")].
Proof.
  apply (@ensure_ready_idempotent (stub_sdk demo_config)
           (fun w => exists ix, w !! "example-index" = Some ix /\
                                ix_remaining ix = Some 0%nat)).
  - intros w description. apply (stub_settled_enter demo_config).
  - intros w. apply (stub_settled_has demo_config).
  - intros w. apply (stub_settled_describe demo_config).
  - by vm_compute.
Defined.

(** C5, an instance: the second of three records has a text the embedder
    does not know. *)
Lemma embedding_failure_rejects_batch_witness :
  let o := @embed_and_upsert (stub_sdk letter_config) "model" "stub-key" "letters" "ns"
             [{| sent_id := "v1"; sent_text := "A" |}; {| sent_id := "v3"; sent_text := "C" |};
              {| sent_id := "v2"; sent_text := "B" |}]
             letter_world in
  result o = Raise (EncodeFailed "C") /\
  letter_embedder "C" = inl (EncodeFailed "C") /\
  final o = letter_world /\
  Forall (fun ev => @is_print (stub_sdk letter_config) ev = true) (trace o) /\
  count (@is_upsert (stub_sdk letter_config)) (trace o) = 0%nat.
Proof.
  apply (@embedding_failure_rejects_batch (stub_sdk letter_config) "model" "stub-key"
           "letters" "ns" _ letter_world {| sent_id := "v3"; sent_text := "C" |}).
  by vm_compute.
Defined.

(** C5, as stated, fails: the failure that comes out is the embedder's own,
    the same for a record "a" and for a record "b": nothing wraps it and
    nothing in it names the record. *)
Lemma embedding_failure_is_not_wrapped :
  result (@embed (stub_sdk letter_config) "model"
            [{| sent_id := "a"; sent_text := "?" |}] ∅) = Raise (EncodeFailed "?") /\
  result (@embed (stub_sdk letter_config) "model"
            [{| sent_id := "b"; sent_text := "?" |}] ∅) = Raise (EncodeFailed "?") /\
  letter_embedder "?" = inl (EncodeFailed "?").
Proof. by vm_compute. Qed.

(** C6, as stated, fails: with a provider that rejects the deletion of a
    name it does not know, the first [teardown] deletes the index and the
    second one raises. *)
Lemma teardown_twice_raises :
  let first := @teardown (stub_sdk demo_config) "stub-key" "example-index" ready_world in
  result first = Ok tt /\
  final first !! "example-index" = None /\
  result (@teardown (stub_sdk demo_config) "stub-key" "example-index" (final first)) =
    Raise (NotFound "example-index").
Proof. by vm_compute. Qed.

(** C7, an instance: two records at squared distances 0 and 10 from the
    query vector. *)
Lemma query_result_is_best_first_witness :
  exists query_result,
    result (@search (stub_sdk letter_config) "model" "letters" "ns" "A" 2 true true
              two_letter_world) = Ok query_result /\
    StronglySorted (ranks_before letter_config euclidean) (matches query_result) /\
    (forall i j mi mj,
       (i < j)%nat -> matches query_result !! i = Some mi ->
       matches query_result !! j = Some mj ->
       (match_score mi <=? match_score mj) = true) /\
    @printed_ranks (stub_sdk letter_config)
      (trace (@report (stub_sdk letter_config) query_result two_letter_world)) =
      imap (fun j m => (S j, match_id m, match_score m)) (matches query_result).
Proof.
  apply (query_result_is_best_first letter_config Z_leb_total Z_leb_trans
           "model" "letters" "ns" "A" 2 true true two_letter_world letter_index [1; 0]);
    [by vm_compute|by vm_compute|lia].
Defined.

(** C8, an instance: two records in the namespace, [top_k] is 5. *)
Lemma query_top_k_above_count_witness :
  exists query_result,
    result (@search (stub_sdk letter_config) "model" "letters" "ns" "A" 5 true true
              two_letter_world) = Ok query_result /\
    length (matches query_result) = size (default ∅ (ix_records letter_index !! "ns")) /\
    matches query_result ≡ₚ
      (scored letter_config euclidean [1; 0] true true <$> stored letter_index "ns") /\
    length (@printed_ranks (stub_sdk letter_config)
              (trace (@report (stub_sdk letter_config) query_result two_letter_world))) =
      size (default ∅ (ix_records letter_index !! "ns")).
Proof.
  apply (query_top_k_above_count letter_config
           "model" "letters" "ns" "A" 5 true true two_letter_world letter_index [1; 0]);
    by vm_compute.
Defined.

(** C10, an instance: the ten sentences of the script, its index, its
    search text. *)
Lemma metadata_round_trip_witness :
  let ingest := @embed_and_upsert (stub_sdk demo_config) "model" "stub-key" "example-index"
                  "example-namespace" sentences_to_index ready_world in
  result ingest = Ok "example-index" /\
  exists query_result,
    result (@search (stub_sdk demo_config) "model" "example-index" "example-namespace"
              "Vector database are totally not useless" 3 true true (final ingest))
      = Ok query_result /\
    forall m sentence,
      m ∈ matches query_result -> sentence ∈ sentences_to_index ->
      match_id m = sent_id sentence ->
      match_metadata m = Some {[ "sentence" := sent_text sentence ]} /\
      sent_text sentence ∈
        @printed_texts (stub_sdk demo_config)
          (trace (@report (stub_sdk demo_config) query_result (final ingest))).
Proof.
  apply (proj2 metadata_round_trip Z demo_config "model" "stub-key" "example-index"
           "example-namespace" sentences_to_index ready_world
           {| ix_dimension := 768; ix_metric := euclidean; ix_spec := aws_us_east_1;
              ix_remaining := Some 0%nat; ix_records := ∅ |}
           "Vector database are totally not useless" (39 :: replicate 767 0) 3 true).
  - exact ready_world_wf.
  - reflexivity.
  - refine (bool_decide_unpack _ _). by vm_compute.
  - intros sentence _. eexists. split; [reflexivity|].
    cbn [length]. rewrite length_replicate. reflexivity.
  - reflexivity.
  - lia.
Defined.

(** The whole script against the stub: it ends normally, creates the index
    once, polls three times, and prints the texts of the three nearest
    sentences, nearest first. *)
Example main_on_the_stub :
  let o := @main (stub_sdk demo_config) 5 ∅ in
  result o = Ok tt /\
  count (@is_create (stub_sdk demo_config)) (trace o) = 1%nat /\
  count (@is_describe (stub_sdk demo_config)) (trace o) = 3%nat /\
  count (@is_sleep (stub_sdk demo_config)) (trace o) = 2%nat /\
  @printed_ranks (stub_sdk demo_config) (trace o) =
    [(1%nat, "vector5", 4); (2%nat, "vector7", 9); (3%nat, "vector3", 16)] /\
  @printed_texts (stub_sdk demo_config) (trace o) =
    ["I enjoy working with vector databases";
     "I find vector databases very helpful";
     "Using vector databases makes my life easier"].
Proof. by vm_compute. Qed.

(** * More of the script *)

(** ** The report (lines 106-115), for every list of matches *)

Section ReportProperties.
Context `{Sdk}.

Lemma concat_match_lines_prints i (ms : list (Match Float)) :
  Forall (fun ev => is_print ev = true)
         (concat (imap (fun j m => match_lines (i + j) m) ms)).
Proof.
  revert i. induction ms as [|m rest IH]; intros i; [constructor|].
  rewrite imap_cons. cbn [concat]. apply Forall_app. split.
  - unfold match_lines. constructor; [done|].
    destruct (match_metadata m) as [md|]; [|by repeat constructor].
    constructor; [done|]. destruct (md !! "sentence"); by repeat constructor.
  - replace (imap ((fun j m0 => match_lines (i + j) m0) ∘ S) rest)
      with (imap (fun j m0 => match_lines (S i + j) m0) rest); [apply IH|].
    apply imap_ext. intros j m0 _. simpl. f_equal. lia.
Qed.

(** X1: the report never fails, calls nothing and leaves the world as it is;
    it prints one numbered line per match, numbered 1, 2, ... in the order of
    [query_result['matches']] ([enumerate] with [i+1]), with the id and the
    score of the match. *)
Theorem report_numbers_every_match query_result w :
  result (report query_result w) = Ok tt /\
  final (report query_result w) = w /\
  Forall (fun ev => is_print ev = true) (trace (report query_result w)) /\
  printed_ranks (trace (report query_result w)) =
    imap (fun j m => (S j, match_id m, match_score m)) (matches query_result).
Proof.
  split_and!; [by rewrite report_run..| |apply report_ranks].
  rewrite report_run. cbn [trace]. constructor; [done|].
  apply Forall_app. split; [|by repeat constructor].
  apply (concat_match_lines_prints 0).
Qed.

Lemma printed_texts_match_lines i m :
  printed_texts (match_lines i m) = option_list (sentence_of m).
Proof.
  unfold match_lines, sentence_of, printed_texts. cbn [omap].
  destruct (match_metadata m) as [md|]; [|done]. cbn [omap].
  by destruct (md !! "sentence").
Qed.

Lemma no_metadata_match_lines i m :
  count is_no_metadata_line (match_lines i m) =
  match match_metadata m with Some _ => 0%nat | None => 1%nat end.
Proof.
  unfold match_lines. rewrite count_cons. cbn [is_no_metadata_line].
  destruct (match_metadata m) as [md|]; [|by rewrite count_cons].
  rewrite count_cons. cbn [is_no_metadata_line].
  destruct (md !! "sentence"); [by rewrite count_cons|done].
Qed.

Lemma concat_match_lines_texts i (ms : list (Match Float)) :
  printed_texts (concat (imap (fun j m => match_lines (i + j) m) ms)) =
  omap sentence_of ms.
Proof.
  revert i. induction ms as [|m rest IH]; intros i; [done|].
  rewrite imap_cons. cbn [concat]. rewrite printed_texts_app, printed_texts_match_lines.
  replace (imap ((fun j m0 => match_lines (i + j) m0) ∘ S) rest)
    with (imap (fun j m0 => match_lines (S i + j) m0) rest)
    by (apply imap_ext; intros j m0 _; simpl; f_equal; lia).
  rewrite IH. simpl. by destruct (sentence_of m).
Qed.

Lemma concat_match_lines_no_metadata i (ms : list (Match Float)) :
  count is_no_metadata_line (concat (imap (fun j m => match_lines (i + j) m) ms)) =
  length (filter (fun m => match_metadata m = None) ms).
Proof.
  revert i. induction ms as [|m rest IH]; intros i; [done|].
  rewrite imap_cons. cbn [concat]. rewrite count_app, no_metadata_match_lines.
  replace (imap ((fun j m0 => match_lines (i + j) m0) ∘ S) rest)
    with (imap (fun j m0 => match_lines (S i + j) m0) rest)
    by (apply imap_ext; intros j m0 _; simpl; f_equal; lia).
  rewrite IH. destruct (match_metadata m) as [md|] eqn:Hmd.
  - by rewrite filter_cons_False by (by rewrite Hmd).
  - by rewrite filter_cons_True by done.
Qed.

(** X2: the texts the report prints are the ['sentence'] entries of the
    matches that have one, in order.  A match without metadata gets the line that
    says so, a match whose metadata has no ['sentence'] entry gets no text
    line, and neither stops the report. *)
Theorem report_prints_the_sentences_present query_result w :
  printed_texts (trace (report query_result w)) = omap sentence_of (matches query_result) /\
  count is_no_metadata_line (trace (report query_result w)) =
    length (filter (fun m => match_metadata m = None) (matches query_result)) /\
  result (report query_result w) = Ok tt.
Proof.
  rewrite report_run. cbn [trace result]. split_and!; [| |done].
  - change (?x :: ?l ++ ?r) with ([x] ++ l ++ r). rewrite !printed_texts_app.
    change match_lines with (fun j => match_lines (0 + j)).
    rewrite concat_match_lines_texts. cbn [printed_texts omap app]. by rewrite app_nil_r.
  - rewrite count_cons, count_app. cbn [is_no_metadata_line].
    change match_lines with (fun j => match_lines (0 + j)).
    rewrite concat_match_lines_no_metadata, count_cons. cbn [is_no_metadata_line].
    unfold count at 1. simpl. lia.
Qed.

End ReportProperties.

(** ** The search (lines 90-96) *)

Section SearchProperties.
Context `{Sdk}.

(** X3: when the embedding of the search text fails, the search ends with
    that failure and calls nothing.  Otherwise it makes one remote call, the query,
    with the vector the embedder gave for the search text and the [top_k],
    namespace and flags it was given, and ends with the provider's answer:
    the response, unchanged, after printing it, or the exception. *)
Theorem search_issues_one_query model index ns search_text top_k
    include_values include_metadata w :
  match encode model search_text with
  | inl e =>
      search model index ns search_text top_k include_values include_metadata w =
      {| result := Raise e; final := w; trace := [] |}
  | inr vector =>
      let reply := query index vector top_k ns include_values include_metadata w in
      search model index ns search_text top_k include_values include_metadata w =
      {| result := answer reply.1;
         final := reply.2;
         trace := CallQuery index vector top_k ns include_values include_metadata ::
                  match reply.1 with
                  | inl _ => []
                  | inr query_result => [Stdout (MsgQueryResult query_result)]
                  end |}
  end.
Proof.
  unfold search.
  destruct (encode model search_text) as [e|vector]; [done|]. cbv zeta.
  apply outcome_eq; run_step;
    by destruct (query index vector top_k ns include_values include_metadata w).1.
Qed.

End SearchProperties.

(** ** Waiting and creating (lines 27-47): when the wait ends, when creation is refused *)

Section WaitProperties.
Context `{Sdk}.

Lemma wait_until_ready_out_of_fuel pc index_name w :
  wait_until_ready 0 pc index_name w = {| result := OutOfFuel; final := w; trace := [] |}.
Proof. done. Qed.

(** X4: the loop ends at the first status read that reports ready: when the
    first [k] reads report not ready and the next one ready, the loop returns
    after [k + 1] reads and [k] sleeps of one second, in the world that last
    read left; evaluating its condition [k] times or fewer is not enough. *)
Theorem wait_ends_at_first_ready pc index_name k w description :
  (forall i, (i < k)%nat ->
     exists d,
       (describe_index pc index_name (world_after_polls pc index_name i w)).1 = inr d /\
       ready (status d) = false) ->
  (describe_index pc index_name (world_after_polls pc index_name k w)).1 = inr description ->
  ready (status description) = true ->
  forall fuel,
    wait_until_ready fuel pc index_name w =
    if (k <? fuel)%nat then
      {| result := Ok tt;
         final := (describe_index pc index_name (world_after_polls pc index_name k w)).2;
         trace := waiting_turns index_name k ++ [CallDescribeIndex index_name] |}
    else
      {| result := OutOfFuel;
         final := world_after_polls pc index_name fuel w;
         trace := waiting_turns index_name fuel |}.
Proof.
  revert w. induction k as [|k IH]; intros w Hbefore Hd Hready fuel.
  - destruct fuel as [|fuel]; [done|]. cbn [Nat.ltb Nat.leb world_after_polls] in *.
    rewrite wait_until_ready_turn. cbv zeta. by rewrite Hd, Hready.
  - destruct fuel as [|fuel]; [done|].
    destruct (Hbefore 0%nat) as (d & Hd0 & Hnot); [lia|]. cbn [world_after_polls] in Hd0.
    rewrite wait_until_ready_turn. cbv zeta. rewrite Hd0, Hnot.
    rewrite (IH (sleep 1 (describe_index pc index_name w).2)); [|..|done|done].
    + change (S k <? S fuel)%nat with (k <? fuel)%nat.
      by destruct (k <? fuel)%nat.
    + intros i Hi. apply (Hbefore (S i)). lia.
Qed.

(** X5: when creation is refused (or the existence check itself fails),
    [ensure_ready] ends with the provider's exception: it does not read the
    status, does not sleep and does not report the index ready. *)
Theorem refused_creation_is_not_waited_for fuel pc index_name dimension metric spec w :
  match (has_index pc index_name w).1 with
  | inl e =>
      ensure_ready fuel pc index_name dimension metric spec w =
      {| result := Raise e; final := (has_index pc index_name w).2;
         trace := [CallHasIndex index_name] |}
  | inr true => True
  | inr false =>
      let reply := create_index pc index_name dimension metric spec
                     (has_index pc index_name w).2 in
      match reply.1 with
      | inl e =>
          ensure_ready fuel pc index_name dimension metric spec w =
          {| result := Raise e; final := reply.2;
             trace := [CallHasIndex index_name;
                       CallCreateIndex index_name dimension metric spec] |}
      | inr _ => True
      end
  end.
Proof.
  pose proof (create_if_absent_run pc index_name dimension metric spec w) as Hguard.
  destruct (has_index pc index_name w).1 as [e|[|]] eqn:Hhas; [|done|].
  - unfold ensure_ready. apply outcome_eq; run_step; by rewrite Hguard.
  - cbv zeta in *.
    destruct (create_index pc index_name dimension metric spec _).1 as [e|[]] eqn:Hcreate;
      [|done].
    unfold ensure_ready. apply outcome_eq; run_step; by rewrite Hguard.
Qed.

End WaitProperties.

(** ** The embedding loop (lines 65-82): empty and concatenated batches *)

Section EmbedProperties.
Context `{Sdk}.

(** The loop only appends to the list it is given. *)
Lemma embed_sentences_accumulates model sentences acc w :
  result (embed_sentences model sentences acc w) =
  match result (embed_sentences model sentences [] w) with
  | Ok vs => Ok (acc ++ vs)
  | Raise e => Raise e
  | OutOfFuel => OutOfFuel
  end.
Proof.
  revert acc. induction sentences as [|sentence rest IH]; intros acc.
  - simpl. by rewrite app_nil_r.
  - destruct (encode model (sent_text sentence)) as [e|embedding] eqn:He.
    + by rewrite !(embed_sentences_raise _ _ _ _ _ _ He).
    + rewrite !(embed_sentences_next _ _ _ _ _ _ He). cbn [result].
      rewrite (IH (acc ++ _)), (IH ([] ++ _)).
      destruct (result (embed_sentences model rest [] w)); [|done..].
      by rewrite <- app_assoc.
Qed.

Lemma embed_sentences_app model xs ys acc w :
  result (embed_sentences model (xs ++ ys) acc w) =
  match result (embed_sentences model xs acc w) with
  | Ok vs => result (embed_sentences model ys vs w)
  | Raise e => Raise e
  | OutOfFuel => OutOfFuel
  end.
Proof.
  revert acc. induction xs as [|sentence rest IH]; intros acc; [done|].
  rewrite <- app_comm_cons.
  destruct (encode model (sent_text sentence)) as [e|embedding] eqn:He.
  - by rewrite !(embed_sentences_raise _ _ _ _ _ _ He).
  - rewrite !(embed_sentences_next _ _ _ _ _ _ He). cbn [result]. apply IH.
Qed.

Lemma embed_result model sentences w :
  result (embed model sentences w) = result (embed_sentences model sentences [] w).
Proof.
  unfold embed. rewrite bind_result.
  destruct (result (embed_sentences model sentences [] w)); [by run_step|done..].
Qed.

(** X6: embedding is record by record: the result for a batch followed by
    another is the result for the first followed by the result for the
    second, and the failure of the first batch, else of the second, when
    one fails. *)
Theorem embed_of_concatenation model xs ys w :
  result (embed model (xs ++ ys) w) =
  match result (embed model xs w) with
  | Ok a =>
      match result (embed model ys w) with
      | Ok b => Ok (a ++ b)
      | Raise e => Raise e
      | OutOfFuel => OutOfFuel
      end
  | Raise e => Raise e
  | OutOfFuel => OutOfFuel
  end.
Proof.
  rewrite !embed_result, embed_sentences_app.
  destruct (result (embed_sentences model xs [] w)) as [a|e|]; [|done..].
  apply embed_sentences_accumulates.
Qed.

(** X7: with no sentence to index the script calls the embedder for nothing,
    and still asks for the index and submits an upsert, of an empty list. *)
Theorem empty_batch_is_still_submitted model pc index_name ns w :
  result (embed model [] w) = Ok [] /\
  trace (embed_and_upsert model pc index_name ns [] w) =
    Stdout (MsgVectorData []) :: CallIndex index_name ::
    match (Index pc index_name w).1 with
    | inl _ => []
    | inr index =>
        CallUpsert index [] ns ::
        match (upsert index [] ns (Index pc index_name w).2).1 with
        | inl _ => []
        | inr upsert_result => [Stdout (MsgUpsertResult upsert_result)]
        end
    end.
Proof.
  split; [done|]. by rewrite (embed_and_upsert_trace model pc index_name ns [] w []).
Qed.

End EmbedProperties.

(** ** The whole script (lines 10-130): what each part may do, and in which order *)

Section MainProperties.
Context `{Sdk}.

Lemma elem_of_trace_bind {A B} (m : Run A) (k : A -> Run B) w ev :
  ev ∈ trace (bind m k w) <->
  ev ∈ trace (m w) \/ exists a, result (m w) = Ok a /\ ev ∈ trace (k a (final (m w))).
Proof.
  rewrite bind_trace, elem_of_app. split.
  - intros [Hm|Hk]; [by left|]. right.
    destruct (result (m w)) as [a| |]; [by exists a|by apply elem_of_nil in Hk..].
  - intros [Hm|(a & Ha & Hk)]; [by left|]. right. by rewrite Ha.
Qed.

(** Every event of an explicit list is one of those named. *)
Ltac each_event :=
  cbv zeta; cbn [trace]; repeat (constructor; [auto 7|]); try constructor.

(** What each part of the script may do. *)
Lemma ensure_ready_events fuel pc index_name dimension metric spec w :
  Forall (fun ev => ev = CallHasIndex index_name \/ is_create ev = true \/
                    is_poll_step index_name ev \/ is_print ev = true)
         (trace (ensure_ready fuel pc index_name dimension metric spec w)).
Proof.
  rewrite ensure_ready_trace, create_if_absent_run. apply Forall_app. split.
  - destruct (has_index pc index_name w).1 as [e|[|]]; each_event.
  - destruct (result _); [|each_event..]. cbv zeta. apply Forall_app. split.
    + eapply Forall_impl; [apply wait_until_ready_polls|]. auto.
    + destruct (result _); each_event.
Qed.

Lemma embed_and_upsert_events model pc index_name ns sentences w :
  Forall (fun ev => is_print ev = true \/ ev = CallIndex index_name \/ is_upsert ev = true)
         (trace (embed_and_upsert model pc index_name ns sentences w)).
Proof.
  destruct (embed_run model sentences w) as (_ & Htr & _).
  assert (Hprints : Forall (fun ev => is_print ev = true \/ ev = CallIndex index_name \/
                                      is_upsert ev = true)
                           (trace (embed model sentences w))).
  { eapply Forall_impl; [exact Htr|]. auto. }
  destruct (result (embed model sentences w)) as [vector_data|e|] eqn:Hr.
  - rewrite (embed_and_upsert_trace _ pc index_name ns _ _ _ Hr).
    apply Forall_app. split; [done|]. constructor; [auto|].
    destruct (Index pc index_name w).1 as [e|index]; [each_event|].
    constructor; [auto|]. destruct (upsert _ _ _ _).1; each_event.
  - by rewrite (embed_and_upsert_raise _ pc index_name ns _ _ _ Hr).
  - by destruct (embed_run model sentences w) as (_ & _ & ?); rewrite Hr in *.
Qed.

Lemma search_run model index ns search_text top_k include_values include_metadata w :
  trace (search model index ns search_text top_k include_values include_metadata w) =
  match encode model search_text with
  | inl _ => []
  | inr vector =>
      CallQuery index vector top_k ns include_values include_metadata ::
      match (query index vector top_k ns include_values include_metadata w).1 with
      | inl _ => []
      | inr query_result => [Stdout (MsgQueryResult query_result)]
      end
  end.
Proof.
  unfold search. run_step. destruct (encode model search_text) as [e|vector]; [done|].
  run_step. by destruct (query _ _ _ _ _ _ _).1.
Qed.

Lemma search_events model index ns search_text top_k include_values include_metadata w :
  Forall (fun ev => is_print ev = true \/ is_query ev = true)
         (trace (search model index ns search_text top_k include_values include_metadata w)).
Proof.
  rewrite search_run. destruct (encode model search_text) as [e|vector]; [each_event|].
  constructor; [auto|]. destruct (query _ _ _ _ _ _ _).1; each_event.
Qed.

Lemma report_events query_result w :
  Forall (fun ev => is_print ev = true) (trace (report query_result w)).
Proof.
  rewrite report_run. cbn [trace]. constructor; [done|].
  apply Forall_app. split; [|by repeat constructor].
  apply (concat_match_lines_prints 0).
Qed.

(** From what a part may do to what it does not do. *)
Ltac none_of_them :=
  let ev := fresh "ev" in
  let Hev := fresh "Hev" in
  intros ev Hev; unfold is_poll_step in Hev;
  repeat match goal with H : _ \/ _ |- _ => destruct H end;
  subst; try done; by destruct ev.

Lemma ensure_ready_only_creates p fuel pc index_name dimension metric spec w :
  p = is_delete \/ p = is_query \/ p = is_upsert ->
  Forall (fun ev => p ev = false)
         (trace (ensure_ready fuel pc index_name dimension metric spec w)).
Proof.
  intros Hp. eapply Forall_impl; [apply ensure_ready_events|].
  destruct Hp as [->|[->| ->]]; none_of_them.
Qed.

Lemma embed_and_upsert_only_upserts p model pc index_name ns sentences w :
  p = is_delete \/ p = is_query ->
  Forall (fun ev => p ev = false)
         (trace (embed_and_upsert model pc index_name ns sentences w)).
Proof.
  intros Hp. eapply Forall_impl; [apply embed_and_upsert_events|].
  destruct Hp as [->| ->]; none_of_them.
Qed.

Lemma search_only_queries p model index ns search_text top_k include_values include_metadata w :
  p = is_delete \/ p = is_upsert ->
  Forall (fun ev => p ev = false)
         (trace (search model index ns search_text top_k include_values include_metadata w)).
Proof.
  intros Hp. eapply Forall_impl; [apply search_events|].
  destruct Hp as [->| ->]; none_of_them.
Qed.

Lemma report_only_prints p query_result w :
  p = is_delete \/ p = is_query \/ p = is_upsert ->
  Forall (fun ev => p ev = false) (trace (report query_result w)).
Proof.
  intros Hp. eapply Forall_impl; [apply report_events|].
  destruct Hp as [->|[->| ->]]; none_of_them.
Qed.

Lemma count_zero_le p (tr : list Event) :
  Forall (fun ev => p ev = false) tr -> (count p tr <= 0)%nat.
Proof. intros Htr. by rewrite count_zero_Forall. Qed.

Lemma embed_and_upsert_upserts_once model pc index_name ns sentences w :
  (count is_upsert (trace (embed_and_upsert model pc index_name ns sentences w)) <= 1)%nat.
Proof.
  destruct (embed_run model sentences w) as (_ & Htr & Hres).
  assert (Hprints : count is_upsert (trace (embed model sentences w)) = 0%nat).
  { apply count_zero_Forall. eapply Forall_impl; [exact Htr|]. by intros []. }
  destruct (result (embed model sentences w)) as [vector_data|e|] eqn:Hr; [|..|done].
  - rewrite (embed_and_upsert_trace _ pc index_name ns _ _ _ Hr), count_app, Hprints.
    rewrite count_cons. cbn [is_upsert].
    destruct (Index pc index_name w).1 as [e|index]; [unfold count; simpl; lia|].
    rewrite count_cons. cbn [is_upsert].
    destruct (upsert _ _ _ _).1; [unfold count; simpl; lia|]. rewrite count_cons; unfold count; simpl; lia.
  - rewrite (embed_and_upsert_raise _ pc index_name ns _ _ _ Hr). cbn [trace]. lia.
Qed.

Lemma search_queries_once model index ns search_text top_k include_values include_metadata w :
  (count is_query
     (trace (search model index ns search_text top_k include_values include_metadata w))
   <= 1)%nat.
Proof.
  rewrite search_run. destruct (encode model search_text) as [e|vector]; [unfold count; simpl; lia|].
  rewrite count_cons. cbn [is_query].
  destruct (query _ _ _ _ _ _ _).1; [unfold count; simpl; lia|]. rewrite count_cons; unfold count; simpl; lia.
Qed.

(** A part of [main] in which nothing of the kind counted happens. *)
Ltac quiet_part :=
  first
    [ apply ensure_ready_only_creates; by auto
    | apply embed_and_upsert_only_upserts; by auto
    | apply search_only_queries; by auto
    | apply report_only_prints; by auto
    | by (autorewrite with run; repeat constructor) ].

Ltac quiet_step :=
  apply (count_bind_le _ _ _ 0 1); [apply count_zero_le; quiet_part|]; intros.

Ltac quiet_rest :=
  apply Nat.eq_le_incl, count_zero_Forall;
  repeat (apply Forall_trace_bind; [quiet_part|intros]); quiet_part.

Lemma main_upserts_at_most_once fuel w :
  (count is_upsert (trace (main fuel w)) <= 1)%nat.
Proof.
  unfold main. do 7 quiet_step.
  apply (count_bind_le _ _ _ 1 0); [apply embed_and_upsert_upserts_once|].
  intros. quiet_rest.
Qed.

Lemma main_queries_at_most_once fuel w :
  (count is_query (trace (main fuel w)) <= 1)%nat.
Proof.
  unfold main. do 10 quiet_step.
  apply (count_bind_le _ _ _ 1 0); [apply search_queries_once|].
  intros. quiet_rest.
Qed.

Lemma main_deletes_at_most_once fuel w :
  (count is_delete (trace (main fuel w)) <= 1)%nat.
Proof. unfold main. do 12 quiet_step. by rewrite teardown_run. Qed.

(** X8: in every run of [main] there is at most one upsert, at most one
    query and at most one deletion: whatever the provider answers, nothing
    is submitted, asked or deleted twice. *)
Theorem main_writes_asks_and_deletes_at_most_once fuel w :
  (count is_upsert (trace (main fuel w)) <= 1)%nat /\
  (count is_query (trace (main fuel w)) <= 1)%nat /\
  (count is_delete (trace (main fuel w)) <= 1)%nat.
Proof.
  split_and!;
    [apply main_upserts_at_most_once|apply main_queries_at_most_once
    |apply main_deletes_at_most_once].
Qed.

Lemma bind_deletes_last {A B} index_name (m : Run A) (k : A -> Run B) w :
  Forall (fun ev => is_delete ev = false) (trace (m w)) ->
  (forall a w', deletes_last_or_never index_name (k a w')) ->
  deletes_last_or_never index_name (bind m k w).
Proof.
  intros Hm Hk. unfold deletes_last_or_never. rewrite bind_trace, bind_result.
  destruct (result (m w)) as [a|e|].
  - destruct (Hk a (final (m w))) as (tr & Htr & [[-> Hnot]| ->]).
    + exists (trace (m w) ++ tr). split; [by apply Forall_app|]. by left.
    + exists (trace (m w) ++ tr). split; [by apply Forall_app|]. right.
      by rewrite app_assoc.
  - exists (trace (m w)). split; [done|]. left. by rewrite app_nil_r.
  - exists (trace (m w)). split; [done|]. left. by rewrite app_nil_r.
Qed.

(** X9: the index is deleted only at the very end.  A run of [main] that stops
    before line 130, because a call raised or the index never became ready,
    has asked for no deletion: the script has no cleanup on failure, the
    index it created stays.  A run that reaches line 130 asks for the
    deletion of "example-index" as the last thing it does. *)
Theorem index_is_deleted_last_or_never fuel w :
  deletes_last_or_never "example-index" (main fuel w).
Proof.
  unfold main.
  do 12 (apply bind_deletes_last; [quiet_part|intros]).
  exists []. split; [constructor|]. by right.
Qed.


Lemma embed_and_upsert_result model pc index_name ns sentences w :
  result (embed_and_upsert model pc index_name ns sentences w) =
  match result (embed model sentences w) with
  | Ok vector_data =>
      match (Index pc index_name w).1 with
      | inl e => Raise e
      | inr index =>
          match (upsert index vector_data ns (Index pc index_name w).2).1 with
          | inl e => Raise e
          | inr _ => Ok index
          end
      end
  | Raise e => Raise e
  | OutOfFuel => OutOfFuel
  end.
Proof.
  destruct (embed_run model sentences w) as (Hw & _ & _).
  unfold embed_and_upsert. rewrite bind_result.
  destruct (result (embed model sentences w)) as [vector_data|e|]; [|done..].
  rewrite Hw. run_step. destruct (Index pc index_name w).1 as [e|index]; [done|].
  run_step. by destruct (upsert index vector_data ns (Index pc index_name w).2).1.
Qed.

(** A block that returned an index has submitted the batch to it. *)
Lemma embed_and_upsert_ok_inv model pc index_name ns sentences w index :
  result (embed_and_upsert model pc index_name ns sentences w) = Ok index ->
  exists vector_data,
    CallUpsert index vector_data ns ∈
      trace (embed_and_upsert model pc index_name ns sentences w) /\
    Forall2 (embeds model) sentences vector_data.
Proof.
  rewrite embed_and_upsert_result.
  destruct (embed_run model sentences w) as (_ & _ & Hres).
  destruct (result (embed model sentences w)) as [vector_data|e|] eqn:Hr; [|done..].
  destruct Hres as [_ Hall].
  rewrite (embed_and_upsert_trace _ pc index_name ns _ _ _ Hr).
  destruct (Index pc index_name w).1 as [e|index0]; [done|].
  destruct (upsert index0 vector_data ns (Index pc index_name w).2).1; [done|].
  intros [= ->]. exists vector_data. split; [|done].
  apply elem_of_app. right. right. left.
Qed.


Lemma bind_ok_inv {A B} (m : Run A) (k : A -> Run B) w b :
  result (bind m k w) = Ok b ->
  exists a, result (m w) = Ok a /\ result (k a (final (m w))) = Ok b.
Proof.
  rewrite bind_result. destruct (result (m w)) as [a| |]; [|done..]. by exists a.
Qed.

Lemma count_at_least_one p (tr : list Event) ev :
  ev ∈ tr -> p ev = true -> (1 <= count p tr)%nat.
Proof.
  intros Hin Hp. apply list_elem_of_split in Hin as (tr1 & tr2 & ->).
  rewrite count_app, count_cons, Hp. lia.
Qed.

Lemma search_ok_inv model index ns search_text top_k include_values include_metadata w
    query_result :
  result (search model index ns search_text top_k include_values include_metadata w)
    = Ok query_result ->
  exists vector,
    CallQuery index vector top_k ns include_values include_metadata ∈
      trace (search model index ns search_text top_k include_values include_metadata w).
Proof.
  rewrite search_run. unfold search. rewrite bind_result, local_result.
  destruct (encode model search_text) as [e|vector]; [done|].
  intros _. exists vector. by left.
Qed.

Lemma ensure_ready_ok_polls fuel pc index_name dimension metric spec w :
  result (ensure_ready fuel pc index_name dimension metric spec w) = Ok tt ->
  CallDescribeIndex index_name ∈
    trace (ensure_ready fuel pc index_name dimension metric spec w).
Proof.
  rewrite ensure_ready_result, ensure_ready_trace.
  destruct (result (create_if_absent _ _ _ _ _ _)) as [[]| |]; [|done..]. cbv zeta.
  intros Hwait. apply elem_of_app. right. apply elem_of_app. left.
  destruct fuel as [|fuel]; [done|]. rewrite wait_until_ready_turn. cbv zeta.
  destruct (describe_index pc index_name _).1 as [e|description]; [by left|].
  destruct (ready (status description)); by left.
Qed.

(** Step into the part of a run that follows a part that returned. *)
Ltac into_rest a :=
  apply elem_of_trace_bind; right; exists a; split; [done|].

(** X11: a run of [main] that ends normally has done everything, once: it has
    read the status of the index at least once, and made exactly one upsert,
    one query and one deletion. *)
Theorem successful_run_does_everything_once fuel w :
  result (main fuel w) = Ok tt ->
  (1 <= count is_describe (trace (main fuel w)))%nat /\
  count is_upsert (trace (main fuel w)) = 1%nat /\
  count is_query (trace (main fuel w)) = 1%nat /\
  count is_delete (trace (main fuel w)) = 1%nat.
Proof.
  intros Hok.
  pose proof (main_upserts_at_most_once fuel w) as Hupserts.
  pose proof (main_queries_at_most_once fuel w) as Hqueries.
  pose proof (main_deletes_at_most_once fuel w) as Hdeletes.
  unfold main in *.
  apply bind_ok_inv in Hok as (model & Hmodel & Hok).
  apply bind_ok_inv in Hok as (pc & Hpc & Hok).
  apply bind_ok_inv in Hok as (indexes & Hindexes & Hok).
  apply bind_ok_inv in Hok as (u1 & Hu1 & Hok).
  apply bind_ok_inv in Hok as ([] & Hready & Hok).
  apply bind_ok_inv in Hok as (indexes' & Hindexes' & Hok).
  apply bind_ok_inv in Hok as (u3 & Hu3 & Hok).
  apply bind_ok_inv in Hok as (index & Hingest & Hok).
  apply bind_ok_inv in Hok as (stats & Hstats & Hok).
  apply bind_ok_inv in Hok as (u4 & Hu4 & Hok).
  apply bind_ok_inv in Hok as (query_result & Hsearch & Hok).
  apply bind_ok_inv in Hok as (u5 & Hreport & Hok).
  destruct (embed_and_upsert_ok_inv _ _ _ _ _ _ _ Hingest) as (vector_data & Hupsert & _).
  destruct (search_ok_inv _ _ _ _ _ _ _ _ _ Hsearch) as (vector & Hquery).
  pose proof (ensure_ready_ok_polls _ _ _ _ _ _ _ Hready) as Hpoll.
  split_and!.
  - eapply (count_at_least_one is_describe _ (CallDescribeIndex "example-index")); [|done].
    into_rest model. into_rest pc. into_rest indexes. into_rest u1.
    apply elem_of_trace_bind. by left.
  - apply Nat.le_antisymm; [done|].
    eapply (count_at_least_one is_upsert _
              (CallUpsert index vector_data "example-namespace")); [|done].
    into_rest model. into_rest pc. into_rest indexes. into_rest u1. into_rest tt.
    into_rest indexes'. into_rest u3. apply elem_of_trace_bind. left. exact Hupsert.
  - apply Nat.le_antisymm; [done|].
    eapply (count_at_least_one is_query _
              (CallQuery index vector 3 "example-namespace" true true)); [|done].
    into_rest model. into_rest pc. into_rest indexes. into_rest u1. into_rest tt.
    into_rest indexes'. into_rest u3. into_rest index. into_rest stats. into_rest u4.
    apply elem_of_trace_bind. left. exact Hquery.
  - apply Nat.le_antisymm; [done|].
    eapply (count_at_least_one is_delete _ (CallDeleteIndex "example-index")); [|done].
    into_rest model. into_rest pc. into_rest indexes. into_rest u1. into_rest tt.
    into_rest indexes'. into_rest u3. into_rest index. into_rest stats. into_rest u4.
    into_rest query_result. into_rest u5. rewrite teardown_run. by left.
Qed.

End MainProperties.

(** ** Instances *)

(** X4, an instance: the script's index, ready two seconds after its
    creation, and a loop allowed five turns. *)
Lemma wait_ends_at_first_ready_witness :
  let w := final (@create_if_absent (stub_sdk demo_config) "stub-key" "example-index" 768
                    euclidean aws_us_east_1 ∅) in
  @wait_until_ready (stub_sdk demo_config) 5 "stub-key" "example-index" w =
  if (2 <? 5)%nat then
    {| result := Ok tt;
       final := (@describe_index (stub_sdk demo_config) "stub-key" "example-index"
                   (@world_after_polls (stub_sdk demo_config) "stub-key" "example-index" 2 w)).2;
       trace := @waiting_turns (stub_sdk demo_config) "example-index" 2 ++
                [@CallDescribeIndex (stub_sdk demo_config) "example-index"] |}
  else
    {| result := OutOfFuel;
       final := @world_after_polls (stub_sdk demo_config) "stub-key" "example-index" 5 w;
       trace := @waiting_turns (stub_sdk demo_config) "example-index" 5 |}.
Proof.
  intros w. eapply (@wait_ends_at_first_ready (stub_sdk demo_config)).
  - intros i Hi. destruct i as [|[|i]]; [eexists; split; by vm_compute..|lia].
  - by vm_compute.
  - by vm_compute.
Defined.


(** X11, an instance: the script against the stub ends normally. *)
Lemma successful_run_does_everything_once_witness :
  (1 <= count (@is_describe (stub_sdk demo_config))
          (trace (@main (stub_sdk demo_config) 5 ∅)))%nat /\
  count (@is_upsert (stub_sdk demo_config)) (trace (@main (stub_sdk demo_config) 5 ∅)) = 1%nat /\
  count (@is_query (stub_sdk demo_config)) (trace (@main (stub_sdk demo_config) 5 ∅)) = 1%nat /\
  count (@is_delete (stub_sdk demo_config)) (trace (@main (stub_sdk demo_config) 5 ∅)) = 1%nat.
Proof.
  apply (@successful_run_does_everything_once (stub_sdk demo_config) 5 ∅). by vm_compute.
Defined.
